(** * Listine variable-height virtual scroll

    A shallow embedding of the height tracking and visible-range code of
    [ListineVirtualScrollComponent]
    (projects/listine/src/lib/listtine-virtual/variable-virtual-scroll/
    listine-virtual-scroll.component.ts), and the properties of it that the
    specification states.

    Conventions of the embedding.
    - The numbers the component handles are pixel counts and indices; they
      are integers ([Z]).  Where [undefined] enters an addition the result is
      [NaN], which is kept as a value of its own ([jsnum]).
    - A JavaScript array is a list; a hole (an index below [length] that was
      never written) is [None].  Reading outside the array gives [undefined],
      writing at or past the end extends the array.
    - The DOM is an input: [scrollTop] of the scroller and the [offsetHeight]
      of every rendered element, in the order of the [QueryList].
    - Calls deferred with [setTimeout] and the callbacks of the
      [ResizeObserver] are later events; each is one more call of the method
      they run. *)

From Stdlib Require Import ZArith Lia Bool.
From stdpp Require Import base list strings pretty.

Local Open Scope Z_scope.

(** ** JavaScript values and arrays *)

Module JS.

(** A value of type [number] that is an integer or [NaN]. *)
Inductive jsnum : Type :=
  | Num (z : Z)
  | NaN.

(** [top += height], where [height] is [undefined] when it is read from a
    hole: a number plus [undefined] is [NaN], and [NaN] absorbs. *)
Definition plus (top : jsnum) (height : option Z) : jsnum :=
  match top, height with
  | Num t, Some h => Num (t + h)
  | _, _ => NaN
  end.

(** [v || 0]: [undefined], [NaN] and [0] are falsy, every other number is
    the result. *)
Definition or_zero (v : option jsnum) : Z :=
  match v with
  | None => 0
  | Some NaN => 0
  | Some (Num z) => if z =? 0 then 0 else z
  end.

(** [a[i]]: [None] is [undefined].  A negative [i] names no element. *)
Definition get {A : Type} (a : list A) (i : Z) : option A :=
  if i <? 0 then None else a !! Z.to_nat i.

(** [a[i] = v] on an array whose holes are [None].  At or past the end the
    array grows to [i + 1] elements and the indices in between are holes.
    A negative [i] creates a named property and leaves the elements and the
    length as they are; named properties are not tracked. *)
Definition set {A : Type} (a : list (option A)) (i : Z) (v : A)
  : list (option A) :=
  if i <? 0 then a
  else
    let k := Z.to_nat i in
    if decide (k < length a)%nat then <[k := Some v]> a
    else a ++ replicate (k - length a)%nat None ++ [Some v].

(** [stored !== height] for a number [height]. *)
Definition differs (stored : option Z) (height : Z) : bool :=
  match stored with
  | Some h => negb (h =? height)
  | None => true
  end.

(** [a.slice(start, end)]. *)
Definition slice {A : Type} (a : list A) (start end_ : Z) : list A :=
  let len := Z.of_nat (length a) in
  let k := if start <? 0 then Z.max (len + start) 0 else Z.min start len in
  let final := if end_ <? 0 then Z.max (len + end_) 0 else Z.min end_ len in
  take (Z.to_nat (Z.max (final - k) 0)) (drop (Z.to_nat k) a).

(** [while (cond(i)) i++], run for at most [fuel] iterations. *)
Fixpoint while_incr (fuel : nat) (cond : Z → bool) (i : Z) : Z :=
  match fuel with
  | O => i
  | S fuel' => if cond i then while_incr fuel' cond (i + 1) else i
  end.

End JS.

Import JS.

(** ** The component *)

Section Component.

Context {Item : Type}.

Record component : Type := Component {
  items : list Item;
  viewportHeight : Z;
  buffer : Z;
  initialItemHeight : Z;
  itemHeights : list (option Z);
  itemTops : list jsnum;
  totalContentHeight : jsnum;
  visibleStart : Z;
  visibleEnd : Z;
  visibleItems : list Item;
}.

Definition set_itemHeights (hs : list (option Z)) (c : component) : component :=
  Component (items c) (viewportHeight c) (buffer c) (initialItemHeight c)
    hs (itemTops c) (totalContentHeight c)
    (visibleStart c) (visibleEnd c) (visibleItems c).

Definition set_itemTops (tops : list jsnum) (total : jsnum) (c : component)
  : component :=
  Component (items c) (viewportHeight c) (buffer c) (initialItemHeight c)
    (itemHeights c) tops total
    (visibleStart c) (visibleEnd c) (visibleItems c).

Definition set_visible (vs ve : Z) (c : component) : component :=
  Component (items c) (viewportHeight c) (buffer c) (initialItemHeight c)
    (itemHeights c) (itemTops c) (totalContentHeight c)
    vs ve (visibleItems c).

Definition set_visibleItems (vis : list Item) (c : component) : component :=
  Component (items c) (viewportHeight c) (buffer c) (initialItemHeight c)
    (itemHeights c) (itemTops c) (totalContentHeight c)
    (visibleStart c) (visibleEnd c) vis.

Definition set_items (its : list Item) (c : component) : component :=
  Component its (viewportHeight c) (buffer c) (initialItemHeight c)
    (itemHeights c) (itemTops c) (totalContentHeight c)
    (visibleStart c) (visibleEnd c) (visibleItems c).

(** The component as constructed: the field initialisers of the class. *)
Definition new_component (its : list Item) : component :=
  Component its 400 5 50 [] [] (Num 0) 0 0 [].

(** One iteration of the loop of [updateItemTops]:
    [this.itemTops.push(top); top += height]. *)
Definition push_top (acc : list jsnum * jsnum) (height : option Z)
  : list jsnum * jsnum :=
  (acc.1 ++ [acc.2], plus acc.2 height).

(** The loop of [updateItemTops] over [this.itemHeights]. *)
Definition build_tops (hs : list (option Z)) : list jsnum * jsnum :=
  foldl push_top ([], Num 0) hs.

Definition updateItemTops (c : component) : component :=
  let r := build_tops (itemHeights c) in
  set_itemTops r.1 r.2 c.

Definition calculateHeights (c : component) : component :=
  updateItemTops c.

Definition initializeHeights (c : component) : component :=
  updateItemTops
    (set_itemHeights (map (λ _, Some (initialItemHeight c)) (items c)) c).

(** [ngOnChanges] for a change of [items]; the [calculateHeights] and
    [onScroll] it defers are later events. *)
Definition ngOnChanges (currentValue : list Item) (c : component)
  : component :=
  initializeHeights (set_items currentValue c).

Definition getItemTop (c : component) (index : Z) : Z :=
  or_zero (get (itemTops c) index).

(** The callback of [this.itemElements.forEach] in [measureItemHeights].
    The state is the height array and the positions of the elements handed
    to [resizeObserver.observe], in order. *)
Definition measure_element (vs : Z) (st : list (option Z) * list nat)
  (idx : nat) (height : Z) : list (option Z) * list nat :=
  let index := vs + Z.of_nat idx in
  if differs (mjoin (get st.1 index)) height
  then (set st.1 index height, st.2 ++ [idx])
  else st.

Fixpoint forEach_measure (vs : Z) (els : list Z) (idx : nat)
  (st : list (option Z) * list nat) : list (option Z) * list nat :=
  match els with
  | [] => st
  | height :: rest =>
      forEach_measure vs rest (S idx) (measure_element vs st idx height)
  end.

(** [measureItemHeights], given the [offsetHeight] of the rendered
    elements.  The second component is the list of elements put under
    observation, that is, of those whose height was overwritten. *)
Definition measureItemHeights (els : list Z) (c : component)
  : component * list nat :=
  let r := forEach_measure (visibleStart c) els 0%nat (itemHeights c, []) in
  (updateItemTops (set_itemHeights r.1 c), r.2).

(** Whether a run of [measureItemHeights] overwrote a height. *)
Definition changed (els : list Z) (c : component) : bool :=
  match (measureItemHeights els c).2 with
  | [] => false
  | _ :: _ => true
  end.

(** [updateVisibleItems]; the measurement it defers is a later event. *)
Definition updateVisibleItems (c : component) : component :=
  set_visibleItems (slice (items c) (visibleStart c) (visibleEnd c)) c.

(** The first loop of [onScroll]. *)
Definition scan_start (c : component) (scrollTop : Z) : Z :=
  let n := Z.of_nat (length (items c)) in
  while_incr (length (items c))
    (λ start, (start <? n) && (getItemTop c (start + 1) <? scrollTop)) 0.

(** The second loop of [onScroll]. *)
Definition scan_end (c : component) (viewportBottom start : Z) : Z :=
  let n := Z.of_nat (length (items c)) in
  while_incr (length (items c))
    (λ end_, (end_ <? n) && (getItemTop c end_ <? viewportBottom)) start.

(** [onScroll], given the [scrollTop] of the scroller and the
    [offsetHeight] of the elements rendered at that moment.  The result
    carries the elements put under observation and the value emitted on
    [scrollEmitter]. *)
Definition onScroll (scrollTop : Z) (els : list Z) (c : component)
  : component * list nat * Z :=
  let viewportBottom := scrollTop + viewportHeight c in
  let start := scan_start c scrollTop in
  let end_ := scan_end c viewportBottom start in
  let c1 :=
    set_visible (Z.max 0 (start - buffer c))
      (Z.min (Z.of_nat (length (items c))) (end_ + buffer c)) c in
  let m := measureItemHeights els c1 in
  (updateVisibleItems m.1, m.2, scrollTop).

End Component.

Arguments component : clear implicits.

(** ** Vocabulary of the statements *)

(** The sum of a prefix of the height array as [updateItemTops] adds it up,
    holes included. *)
Definition sum_heights (hs : list (option Z)) : jsnum :=
  foldl plus (Num 0) hs.

(** The sum of a sequence of numbers. *)
Definition sumZ (H : list Z) : Z := foldr Z.add 0 H.

(** A height array without holes, holding the heights [H]. *)
Definition heights_of (H : list Z) : list (option Z) := Some <$> H.

(** The half-open intervals [[a, b)] and [[c, d)] have a point in common. *)
Definition overlaps (a b c d : Z) : Prop :=
  ∃ x, (a ≤ x < b) ∧ (c ≤ x < d).

(** A component over the items [its] whose heights are [H] and whose offset
    table has been built from them by [updateItemTops]. *)
Definition with_heights {Item : Type} (its : list Item) (vh buf : Z)
  (H : list Z) : component Item :=
  updateItemTops (Component its vh buf 50 (heights_of H) [] (Num 0) 0 0 []).

(** The offset table and the total are the ones [updateItemTops] builds
    from the heights the component holds. *)
Definition tables_in_sync {Item : Type} (c : component Item) : Prop :=
  itemTops c = (build_tops (itemHeights c)).1
  ∧ totalContentHeight c = (build_tops (itemHeights c)).2.

(** ** The template, the life cycle and the events *)

Section Events.

Context {Item : Type}.



(** [ngOnInit]; the second component is what it writes to the console. *)
Definition ngOnInit (c : component Item) : component Item * list Item :=
  (initializeHeights c, items c).

(** The task that [ngOnChanges] and [ngAfterViewInit] defer:
    [this.calculateHeights(); this.onScroll()]. *)
Definition deferred_refresh (scrollTop : Z) (els : list Z)
  (c : component Item) : component Item * list nat * Z :=
  onScroll scrollTop els (calculateHeights c).

(** What can happen to a component, with what is read from the DOM when it
    happens. *)
Inductive event : Type :=
  | NgOnInit
  | NgOnChanges (currentValue : list Item)
  | Refresh (scrollTop : Z) (els : list Z)
  | Scroll (scrollTop : Z) (els : list Z)
  | Measure (els : list Z).

(** The state after an event: [Refresh] is the deferred task of
    [ngOnChanges] and [ngAfterViewInit], [Scroll] the scroll listener of the
    template, [Measure] the measurement deferred by [updateVisibleItems] and
    the callback of the [ResizeObserver]. *)
Definition handle (e : event) (c : component Item) : component Item :=
  match e with
  | NgOnInit => (ngOnInit c).1
  | NgOnChanges currentValue => ngOnChanges currentValue c
  | Refresh scrollTop els => (deferred_refresh scrollTop els c).1.1
  | Scroll scrollTop els => (onScroll scrollTop els c).1.1
  | Measure els => (measureItemHeights els c).1
  end.

Definition run (es : list event) (c : component Item) : component Item :=
  foldl (λ c e, handle e c) c es.

(** The events that read the DOM and leave the item list alone, and the
    heights they read. *)
Definition dom_event (e : event) : Prop :=
  match e with
  | NgOnInit | NgOnChanges _ => False
  | Refresh _ _ | Scroll _ _ | Measure _ => True
  end.

Definition measured (e : event) : list Z :=
  match e with
  | NgOnInit | NgOnChanges _ => []
  | Refresh _ els | Scroll _ els | Measure els => els
  end.

End Events.

Arguments event : clear implicits.

(** ** The demo application *)

Module App.

(** An option of the demo's select. *)
Record mode : Type := Mode {
  label : option string;
  value : string;
}.

Definition cities : list string :=
  ["Chicago"; "Houston"; "New York"; "San Francisco"; "Los Angeles"].

(** The callback of [Array.from] in [COLLECTION_MODES]. *)
Definition collection_mode (index : nat) : mode :=
  let cityIndex := (index `mod` length cities)%nat in
  Mode (cities !! cityIndex) (pretty index).

(** [Array.from({ length }, (_, index) => ...)]. *)
Definition array_from {A : Type} (len : nat) (f : nat → A) : list A :=
  f <$> seq 0 len.

Definition collection_modes (len : nat) : list mode :=
  array_from len collection_mode.

Definition COLLECTION_MODES : list mode :=
  collection_modes (N.to_nat 1000000).

End App.

(** ** Facts about the JavaScript primitives *)

Section WhileIncr.

Implicit Types (fuel : nat) (cond : Z → bool) (i j n : Z).

Lemma while_incr_ge fuel cond i : i ≤ while_incr fuel cond i.
Proof.
  revert i. induction fuel as [|fuel IH]; intros i; simpl; [lia|].
  destruct (cond i); [|lia]. specialize (IH (i + 1)). lia.
Qed.

(** Every index the loop stepped over satisfied the loop condition. *)
Lemma while_incr_passed fuel cond i j :
  i ≤ j < while_incr fuel cond i → cond j = true.
Proof.
  revert i. induction fuel as [|fuel IH]; intros i; simpl; [lia|].
  destruct (cond i) eqn:Hc; [|lia].
  intros Hj. destruct (decide (j = i)) as [->|Hne]; [done|].
  apply (IH (i + 1)). lia.
Qed.

(** A loop guarded by [i < n] never runs past [n]. *)
Lemma while_incr_le fuel n (p : Z → bool) i :
  i ≤ n → while_incr fuel (λ k, (k <? n) && p k) i ≤ n.
Proof.
  revert i. induction fuel as [|fuel IH]; intros i Hi; simpl; [lia|].
  destruct (i <? n) eqn:Hlt; simpl; [|lia].
  apply Z.ltb_lt in Hlt. destruct (p i); [|lia]. apply IH. lia.
Qed.

(** With [n - i] iterations or more the loop has left through its condition:
    the fuel has not run out. *)
Lemma while_incr_exit fuel n (p : Z → bool) i :
  n - i ≤ Z.of_nat fuel →
  let r := while_incr fuel (λ k, (k <? n) && p k) i in
  (r <? n) && p r = false.
Proof.
  revert i. induction fuel as [|fuel IH]; intros i Hf; simpl.
  - apply andb_false_iff. left. apply Z.ltb_ge. lia.
  - destruct ((i <? n) && p i) eqn:Hc; [|done].
    apply IH. lia.
Qed.

(** More fuel than the guard allows iterations changes nothing. *)
Lemma while_incr_fuel fuel fuel' n (p : Z → bool) i :
  n - i ≤ Z.of_nat fuel → n - i ≤ Z.of_nat fuel' →
  while_incr fuel (λ k, (k <? n) && p k) i
  = while_incr fuel' (λ k, (k <? n) && p k) i.
Proof.
  revert fuel' i. induction fuel as [|fuel IH]; intros [|fuel'] i H1 H2; simpl;
    try done.
  - replace (i <? n) with false; [done|]. symmetry. apply Z.ltb_ge. lia.
  - replace (i <? n) with false; [done|]. symmetry. apply Z.ltb_ge. lia.
  - destruct (i <? n) eqn:Hlt; simpl; [|done].
    apply Z.ltb_lt in Hlt. destruct (p i); [|done]. apply IH; lia.
Qed.

(** A loop that starts later and whose condition holds wherever the other's
    does stops no earlier, provided it left through its condition. *)
Lemma while_incr_mono fuel fuel' cond cond' i i' :
  i ≤ i' →
  (∀ j, cond j = true → cond' j = true) →
  cond' (while_incr fuel' cond' i') = false →
  while_incr fuel cond i ≤ while_incr fuel' cond' i'.
Proof.
  intros Hi Himp Hexit.
  destruct (Z_le_gt_dec (while_incr fuel cond i) (while_incr fuel' cond' i'))
    as [|Hgt]; [done|].
  pose proof (while_incr_ge fuel' cond' i') as Hge.
  assert (cond (while_incr fuel' cond' i') = true) as Hc
    by (apply (while_incr_passed fuel cond i); lia).
  apply Himp in Hc. congruence.
Qed.

End WhileIncr.

Lemma or_zero_Num z : or_zero (Some (Num z)) = z.
Proof. simpl. destruct (z =? 0) eqn:E; [|done]. apply Z.eqb_eq in E. done. Qed.

Lemma get_nat {A : Type} (a : list A) (k : nat) : get a (Z.of_nat k) = a !! k.
Proof.
  unfold get. destruct (Z.of_nat k <? 0) eqn:E; [apply Z.ltb_lt in E; lia|].
  by rewrite Nat2Z.id.
Qed.

Lemma get_out_of_range {A : Type} (a : list A) (i : Z) :
  i < 0 ∨ Z.of_nat (length a) ≤ i → get a i = None.
Proof.
  intros H. unfold get. destruct (i <? 0) eqn:E; [done|].
  apply Z.ltb_ge in E. apply lookup_ge_None_2. lia.
Qed.

Section ArraySet.

Context {A : Type}.
Implicit Types (a : list (option A)) (k j : nat) (v : A).

Lemma set_nat_length a k v :
  length (set a (Z.of_nat k) v) = (length a `max` S k)%nat.
Proof.
  unfold set. destruct (Z.of_nat k <? 0) eqn:E; [apply Z.ltb_lt in E; lia|].
  rewrite Nat2Z.id. case_decide.
  - rewrite length_insert. lia.
  - rewrite !length_app, length_replicate. simpl. lia.
Qed.

Lemma set_nat_lookup_eq a k v : set a (Z.of_nat k) v !! k = Some (Some v).
Proof.
  unfold set. destruct (Z.of_nat k <? 0) eqn:E; [apply Z.ltb_lt in E; lia|].
  rewrite Nat2Z.id. case_decide.
  - by apply list_lookup_insert_eq.
  - rewrite lookup_app_r by lia.
    rewrite lookup_app_r by (rewrite length_replicate; lia).
    rewrite length_replicate, Nat.sub_diag. done.
Qed.

(** A write leaves every other index as it reads: an index between the old
    end and the written one was [undefined] and is a hole. *)
Lemma set_nat_lookup_ne a k j v :
  k ≠ j → mjoin (set a (Z.of_nat k) v !! j) = mjoin (a !! j).
Proof.
  intros Hne. unfold set.
  destruct (Z.of_nat k <? 0) eqn:E; [apply Z.ltb_lt in E; lia|].
  rewrite Nat2Z.id. case_decide.
  - by rewrite list_lookup_insert_ne.
  - destruct (decide (j < length a)%nat).
    + by rewrite lookup_app_l.
    + rewrite (lookup_ge_None_2 a j) by lia.
      rewrite lookup_app_r by lia.
      destruct (decide (j - length a < k - length a)%nat).
      * rewrite lookup_app_l by (rewrite length_replicate; lia).
        rewrite lookup_replicate_2 by lia. done.
      * rewrite lookup_app_r by (rewrite length_replicate; lia).
        rewrite length_replicate.
        destruct (j - length a - (k - length a))%nat as [|m] eqn:Em; [lia|].
        done.
Qed.

Lemma set_nat_in_range a k v :
  (k < length a)%nat → set a (Z.of_nat k) v = <[k := Some v]> a.
Proof.
  intros Hk. unfold set.
  destruct (Z.of_nat k <? 0) eqn:E; [apply Z.ltb_lt in E; lia|].
  rewrite Nat2Z.id. by rewrite decide_True.
Qed.

End ArraySet.

(** ** The offset table *)

Lemma build_tops_snoc hs h :
  build_tops (hs ++ [h])
  = ((build_tops hs).1 ++ [(build_tops hs).2], plus (build_tops hs).2 h).
Proof. unfold build_tops. by rewrite foldl_app. Qed.

Lemma sum_heights_snoc hs h :
  sum_heights (hs ++ [h]) = plus (sum_heights hs) h.
Proof. unfold sum_heights. by rewrite foldl_app. Qed.

Lemma build_tops_length hs : length (build_tops hs).1 = length hs.
Proof.
  induction hs as [|h hs IH] using rev_ind; [done|].
  rewrite build_tops_snoc. simpl. rewrite !length_app, IH. done.
Qed.

Lemma build_tops_total hs : (build_tops hs).2 = sum_heights hs.
Proof.
  induction hs as [|h hs IH] using rev_ind; [done|].
  rewrite build_tops_snoc, sum_heights_snoc. simpl. by rewrite IH.
Qed.

(** The offset of item [i] is the sum of the heights before it. *)
Lemma build_tops_lookup hs (i : nat) :
  (i < length hs)%nat →
  (build_tops hs).1 !! i = Some (sum_heights (take i hs)).
Proof.
  induction hs as [|h hs IH] using rev_ind; [simpl; lia|].
  rewrite length_app. simpl. intros Hi.
  rewrite build_tops_snoc. simpl.
  destruct (decide (i < length hs)%nat) as [Hlt|Hge].
  - rewrite lookup_app_l by (rewrite build_tops_length; lia).
    rewrite take_app_le by lia. by apply IH.
  - assert (i = length hs) as -> by lia.
    rewrite lookup_app_r by (rewrite build_tops_length; lia).
    rewrite build_tops_length, Nat.sub_diag. simpl.
    rewrite take_app_le by lia. rewrite take_ge by lia.
    by rewrite build_tops_total.
Qed.

Lemma foldl_plus_Some (H : list Z) (a : Z) :
  foldl plus (Num a) (heights_of H) = Num (a + sumZ H).
Proof.
  revert a. induction H as [|h H IH]; intros a; simpl.
  - f_equal. lia.
  - rewrite IH. f_equal. lia.
Qed.

Lemma sum_heights_of (H : list Z) : sum_heights (heights_of H) = Num (sumZ H).
Proof. unfold sum_heights. by rewrite foldl_plus_Some. Qed.

Lemma sumZ_app (H1 H2 : list Z) : sumZ (H1 ++ H2) = sumZ H1 + sumZ H2.
Proof. induction H1 as [|h H1 IH]; simpl; [done|]. rewrite IH. lia. Qed.

Lemma sumZ_take_S (H : list Z) (i : nat) (h : Z) :
  H !! i = Some h → sumZ (take (S i) H) = sumZ (take i H) + h.
Proof.
  intros Hi. rewrite (take_S_r _ _ _ Hi), sumZ_app. simpl. lia.
Qed.

Lemma sumZ_nonneg (H : list Z) : Forall (λ h, 0 ≤ h) H → 0 ≤ sumZ H.
Proof. induction 1; simpl; lia. Qed.

(** Prefix sums of non-negative heights do not decrease. *)
Lemma sumZ_take_mono (H : list Z) (i j : nat) :
  Forall (λ h, 0 ≤ h) H → (i ≤ j)%nat → sumZ (take i H) ≤ sumZ (take j H).
Proof.
  intros Hnn Hij.
  replace j with (i + (j - i))%nat by lia.
  rewrite <- take_take_drop, sumZ_app.
  assert (0 ≤ sumZ (take (j - i) (drop i H))); [|lia].
  apply sumZ_nonneg. apply Forall_take, Forall_drop. done.
Qed.

Lemma heights_of_length (H : list Z) : length (heights_of H) = length H.
Proof. unfold heights_of. by rewrite length_fmap. Qed.

Lemma heights_of_take (H : list Z) (i : nat) :
  take i (heights_of H) = heights_of (take i H).
Proof. unfold heights_of. by rewrite fmap_take. Qed.

(** The offset table built from heights without holes holds the prefix sums
    of the heights. *)
Lemma build_tops_heights_of (H : list Z) (i : nat) :
  (i < length H)%nat →
  (build_tops (heights_of H)).1 !! i = Some (Num (sumZ (take i H))).
Proof.
  intros Hi. rewrite build_tops_lookup by (rewrite heights_of_length; lia).
  by rewrite heights_of_take, sum_heights_of.
Qed.

Section ComponentFacts.

Context {Item : Type}.
Implicit Types (c : component Item) (H : list Z).

Lemma getItemTop_out_of_range c (index : Z) :
  index < 0 ∨ Z.of_nat (length (itemTops c)) ≤ index → getItemTop c index = 0.
Proof. intros Hout. unfold getItemTop. by rewrite get_out_of_range. Qed.

Lemma getItemTop_Num c (k : nat) (o : Z) :
  itemTops c !! k = Some (Num o) → getItemTop c (Z.of_nat k) = o.
Proof.
  intros Hk. unfold getItemTop. rewrite get_nat, Hk. apply or_zero_Num.
Qed.

(** An offset that is [NaN] reads as [0] as well. *)
Lemma getItemTop_NaN c (k : nat) :
  itemTops c !! k = Some NaN → getItemTop c (Z.of_nat k) = 0.
Proof. intros Hk. unfold getItemTop. by rewrite get_nat, Hk. Qed.

Lemma itemTops_with_heights (its : list Item) vh buf H :
  itemTops (with_heights its vh buf H) = (build_tops (heights_of H)).1.
Proof. done. Qed.

Lemma getItemTop_with_heights (its : list Item) vh buf H (i : nat) :
  (i < length H)%nat →
  getItemTop (with_heights its vh buf H) (Z.of_nat i) = sumZ (take i H).
Proof.
  intros Hi. apply getItemTop_Num.
  rewrite itemTops_with_heights. by apply build_tops_heights_of.
Qed.

Lemma getItemTop_with_heights_end (its : list Item) vh buf H (i : Z) :
  Z.of_nat (length H) ≤ i → getItemTop (with_heights its vh buf H) i = 0.
Proof.
  intros Hi. apply getItemTop_out_of_range. right.
  by rewrite itemTops_with_heights, build_tops_length, heights_of_length.
Qed.

End ComponentFacts.

(** ** The offset table builder (C3) and the lookup (C7) *)

(** C3. For every sequence of heights [H], [updateItemTops] builds an offset
    table of the length of [H] whose first entry is [0] and in which every
    later entry is the entry before it plus the height before it;
    [totalContentHeight] is the sum of [H].  From the empty sequence it
    builds the empty table and the total [0]. *)
Theorem updateItemTops_prefix_sums {Item : Type} (c : component Item)
  (H : list Z) :
  let c' := updateItemTops (set_itemHeights (heights_of H) c) in
  length (itemTops c') = length H
  ∧ ((0 < length H)%nat → itemTops c' !! 0%nat = Some (Num 0))
  ∧ (∀ i : nat, (1 ≤ i < length H)%nat →
       ∃ o h, itemTops c' !! (i - 1)%nat = Some (Num o)
              ∧ H !! (i - 1)%nat = Some h
              ∧ itemTops c' !! i = Some (Num (o + h)))
  ∧ totalContentHeight c' = Num (sumZ H)
  ∧ (H = [] → itemTops c' = [] ∧ totalContentHeight c' = Num 0).
Proof.
  simpl. split_and!.
  - by rewrite build_tops_length, heights_of_length.
  - intros Hpos. by rewrite build_tops_heights_of.
  - intros i Hi.
    destruct (lookup_lt_is_Some_2 H (i - 1)) as [h Hh]; [lia|].
    exists (sumZ (take (i - 1) H)), h. split_and!; [|done|].
    + apply build_tops_heights_of. lia.
    + rewrite build_tops_heights_of by lia. do 2 f_equal.
      replace i with (S (i - 1)) at 1 by lia. by apply sumZ_take_S.
  - by rewrite build_tops_total, sum_heights_of.
  - by intros ->.
Qed.

(** C7, as the code has it.  [getItemTop] returns [0] for every index
    outside the offset table, negative or at or past its end.  For every
    index inside it, it returns the stored offset when that is a number, and
    [0] when the stored entry is [NaN]: [|| 0] replaces every falsy value. *)
Theorem getItemTop_safe_lookup {Item : Type} (c : component Item)
  (index : Z) :
  (index < 0 ∨ Z.of_nat (length (itemTops c)) ≤ index →
     getItemTop c index = 0)
  ∧ (0 ≤ index < Z.of_nat (length (itemTops c)) →
     ∃ stored : jsnum,
       itemTops c !! Z.to_nat index = Some stored
       ∧ getItemTop c index
         = match stored with
           | Num o => o
           | NaN => 0
           end).
Proof.
  split.
  - apply getItemTop_out_of_range.
  - intros Hin.
    destruct (lookup_lt_is_Some_2 (itemTops c) (Z.to_nat index))
      as [stored Hs]; [lia|].
    exists stored. split; [done|].
    rewrite <- (Z2Nat.id index) at 1 by lia.
    destruct stored as [o|].
    + by apply getItemTop_Num.
    + by apply getItemTop_NaN.
Qed.

(** C7 as stated fails where the table holds [NaN].  A hundred items are
    scrolled to [4000], so that [visibleStart] is [74]; the list is replaced
    by three items, which resets the heights and leaves [visibleStart]; a
    measurement of one element then writes the height array at index [74]
    and leaves holes from [3] on.  Index [4] is inside the offset table, the
    entry stored there is [NaN], and [getItemTop(4)] is [0]. *)
Lemma getItemTop_in_range_not_stored :
  let c := run [NgOnInit; Scroll 4000 []; NgOnChanges [7; 8; 9]%nat;
                Measure [50]] (new_component (seq 0 100)) in
  visibleStart c = 74
  ∧ length (itemTops c) = 75%nat
  ∧ 0 ≤ 4 < Z.of_nat (length (itemTops c))
  ∧ itemTops c !! 4%nat = Some NaN
  ∧ getItemTop c 4 = 0
  ∧ Num (getItemTop c 4) ≠ NaN.
Proof.
  cbv zeta. split_and!; try (vm_compute; reflexivity); discriminate.
Qed.

(** ** The visible range *)

(** A guarded loop whose test holds all the way up to [n] stops at [n]. *)
Lemma while_incr_all fuel n (p : Z → bool) i :
  i ≤ n → n - i ≤ Z.of_nat fuel →
  (∀ j, i ≤ j < n → p j = true) →
  while_incr fuel (λ k, (k <? n) && p k) i = n.
Proof.
  intros Hi Hf Hp.
  pose proof (while_incr_le fuel n p i Hi) as Hle.
  pose proof (while_incr_ge fuel (λ k, (k <? n) && p k) i) as Hge.
  pose proof (while_incr_exit fuel n p i Hf) as Hex. simpl in Hex.
  destruct (Z_lt_le_dec (while_incr fuel (λ k, (k <? n) && p k) i) n)
    as [Hlt|]; [|lia].
  rewrite Hp in Hex by lia.
  apply Z.ltb_lt in Hlt. rewrite Hlt in Hex. done.
Qed.

Section Resolver.

Context {Item : Type}.
Implicit Types (c : component Item) (H : list Z).

Lemma onScroll_visibleStart scrollTop els c :
  visibleStart (onScroll scrollTop els c).1.1
  = Z.max 0 (scan_start c scrollTop - buffer c).
Proof. done. Qed.

Lemma onScroll_visibleEnd scrollTop els c :
  visibleEnd (onScroll scrollTop els c).1.1
  = Z.min (Z.of_nat (length (items c)))
      (scan_end c (scrollTop + viewportHeight c) (scan_start c scrollTop)
       + buffer c).
Proof. done. Qed.

Lemma onScroll_items scrollTop els c :
  items (onScroll scrollTop els c).1.1 = items c.
Proof. done. Qed.

Lemma scan_start_bounds c scrollTop :
  0 ≤ scan_start c scrollTop ≤ Z.of_nat (length (items c)).
Proof.
  unfold scan_start. split; [apply while_incr_ge|].
  apply (while_incr_le _ _ (λ k, getItemTop c (k + 1) <? scrollTop)). lia.
Qed.

Lemma scan_end_bounds c viewportBottom start :
  start ≤ Z.of_nat (length (items c)) →
  start ≤ scan_end c viewportBottom start ≤ Z.of_nat (length (items c)).
Proof.
  intros Hs. unfold scan_end. split; [apply while_incr_ge|].
  by apply (while_incr_le _ _ (λ k, getItemTop c k <? viewportBottom)).
Qed.

(** Both loops leave through their condition: the number of items is
    enough fuel. *)
Lemma scan_start_exit c scrollTop :
  let start := scan_start c scrollTop in
  (start <? Z.of_nat (length (items c)))
  && (getItemTop c (start + 1) <? scrollTop) = false.
Proof.
  apply (while_incr_exit _ _ (λ k, getItemTop c (k + 1) <? scrollTop)). lia.
Qed.

Lemma scan_end_exit c viewportBottom start :
  0 ≤ start →
  let end_ := scan_end c viewportBottom start in
  (end_ <? Z.of_nat (length (items c)))
  && (getItemTop c end_ <? viewportBottom) = false.
Proof.
  intros Hs.
  apply (while_incr_exit _ _ (λ k, getItemTop c k <? viewportBottom)). lia.
Qed.

Lemma scan_start_mono c s s' :
  s ≤ s' → scan_start c s ≤ scan_start c s'.
Proof.
  intros Hs. unfold scan_start. apply while_incr_mono; [lia| |].
  - intros j [Hj Ht]%andb_true_iff. apply andb_true_iff. split; [done|].
    apply Z.ltb_lt in Ht. apply Z.ltb_lt. lia.
  - apply scan_start_exit.
Qed.

Lemma scan_end_mono c b b' start start' :
  b ≤ b' → start ≤ start' → 0 ≤ start' →
  scan_end c b start ≤ scan_end c b' start'.
Proof.
  intros Hb Hs Hs'. unfold scan_end. apply while_incr_mono; [lia| |].
  - intros j [Hj Ht]%andb_true_iff. apply andb_true_iff. split; [done|].
    apply Z.ltb_lt in Ht. apply Z.ltb_lt. lia.
  - by apply scan_end_exit.
Qed.

(** Past the top of the last item the first loop runs to the end of the
    list: the offsets below are smaller, and the lookup one past the table
    gives [0]. *)
Lemma scan_start_saturates (its : list Item) vh buf H (s : Z) :
  length its = length H → H ≠ [] →
  Forall (λ h, 0 ≤ h) H →
  sumZ (take (length H - 1) H) < s →
  scan_start (with_heights its vh buf H) s = Z.of_nat (length H).
Proof.
  intros Hlen Hne Hnn Hs. unfold scan_start.
  change (items (with_heights its vh buf H)) with its. rewrite Hlen.
  apply (while_incr_all _ _
           (λ k, getItemTop (with_heights its vh buf H) (k + 1) <? s));
    [lia|lia|].
  intros j Hj. apply Z.ltb_lt.
  destruct (decide (j + 1 < Z.of_nat (length H))) as [Hin|Hout].
  - replace (j + 1) with (Z.of_nat (Z.to_nat (j + 1))) by lia.
    rewrite getItemTop_with_heights by lia.
    pose proof (sumZ_take_mono H (Z.to_nat (j + 1)) (length H - 1) Hnn).
    lia.
  - rewrite getItemTop_with_heights_end by lia.
    pose proof (sumZ_nonneg (take (length H - 1) H)
                  (Forall_take _ _ _ Hnn)). lia.
Qed.

Lemma scan_end_at_length c viewportBottom :
  scan_end c viewportBottom (Z.of_nat (length (items c)))
  = Z.of_nat (length (items c)).
Proof.
  pose proof (scan_end_bounds c viewportBottom (Z.of_nat (length (items c)))).
  lia.
Qed.

End Resolver.

(** C6. After every run of [onScroll] with a buffer [≥ 0] and a scroll
    position [≥ 0], [0 ≤ visibleStart ≤ visibleEnd ≤ items.length]. *)
Theorem onScroll_range_valid {Item : Type} (c : component Item)
  (scrollTop : Z) (els : list Z) :
  0 ≤ buffer c → 0 ≤ scrollTop →
  let c' := (onScroll scrollTop els c).1.1 in
  0 ≤ visibleStart c'
  ∧ visibleStart c' ≤ visibleEnd c'
  ∧ visibleEnd c' ≤ Z.of_nat (length (items c')).
Proof.
  intros Hb _. cbv zeta.
  rewrite onScroll_visibleStart, onScroll_visibleEnd, onScroll_items.
  pose proof (scan_start_bounds c scrollTop) as [H0 Hn].
  pose proof (scan_end_bounds c (scrollTop + viewportHeight c) _ Hn).
  lia.
Qed.

Lemma onScroll_range_valid_witness :
  let c' := (onScroll 120 [50; 50; 50]
               (with_heights [1; 2; 3]%nat 400 5 [50; 50; 50])).1.1 in
  0 ≤ visibleStart c'
  ∧ visibleStart c' ≤ visibleEnd c'
  ∧ visibleEnd c' ≤ Z.of_nat (length (items c')).
Proof.
  apply (onScroll_range_valid
           (with_heights [1; 2; 3]%nat 400 5 [50; 50; 50]) 120 [50; 50; 50]);
    simpl; lia.
Defined.

(** C4. Over a fixed offset table built from non-negative heights, with the
    items, the viewport height and the buffer fixed, the [visibleStart] and
    the [visibleEnd] that [onScroll] computes do not decrease when
    [scrollTop] grows. *)
Theorem onScroll_monotone_in_scrollTop {Item : Type} (its : list Item)
  (vh buf : Z) (H : list Z) (s s' : Z) (els els' : list Z) :
  Forall (λ h, 0 ≤ h) H → s ≤ s' →
  let c := with_heights its vh buf H in
  visibleStart (onScroll s els c).1.1 ≤ visibleStart (onScroll s' els' c).1.1
  ∧ visibleEnd (onScroll s els c).1.1 ≤ visibleEnd (onScroll s' els' c).1.1.
Proof.
  intros _ Hs c.
  rewrite !onScroll_visibleStart, !onScroll_visibleEnd.
  pose proof (scan_start_mono c s s' Hs) as Hst.
  pose proof (scan_start_bounds c s') as [H0 _].
  pose proof (scan_end_mono c (s + viewportHeight c) (s' + viewportHeight c)
                (scan_start c s) (scan_start c s')).
  lia.
Qed.

Lemma onScroll_monotone_in_scrollTop_witness :
  let c := with_heights [1; 2; 3; 4]%nat 100 1 [50; 0; 70; 30] in
  visibleStart (onScroll 40 [] c).1.1 ≤ visibleStart (onScroll 130 [] c).1.1
  ∧ visibleEnd (onScroll 40 [] c).1.1 ≤ visibleEnd (onScroll 130 [] c).1.1.
Proof.
  apply (onScroll_monotone_in_scrollTop [1; 2; 3; 4]%nat 100 1
           [50; 0; 70; 30] 40 130 [] []).
  - repeat constructor; lia.
  - lia.
Defined.

(** C9. Over a non-empty list with strictly positive heights, for every
    [scrollTop] above the top of the last item, the start index that the
    first loop of [onScroll] computes, before the buffer is subtracted, is
    the number of items; so with a buffer of [0] and a [scrollTop] still
    inside the last item the range is [(itemCount, itemCount)]. *)
Theorem scan_start_past_last_item {Item : Type} (its : list Item)
  (vh buf : Z) (H : list Z) (s o : Z) (els : list Z) :
  length its = length H → H ≠ [] →
  Forall (λ h, 0 < h) H →
  let c := with_heights its vh buf H in
  itemTops c !! (length its - 1)%nat = Some (Num o) →
  o < s →
  scan_start c s = Z.of_nat (length its)
  ∧ (∀ total, buf = 0 → totalContentHeight c = Num total → s < total →
       visibleStart (onScroll s els c).1.1 = Z.of_nat (length its)
       ∧ visibleEnd (onScroll s els c).1.1 = Z.of_nat (length its)).
Proof.
  intros Hlen Hne Hpos c Ho Hs.
  assert (Forall (λ h, 0 ≤ h) H) as Hnn
    by (eapply Forall_impl; [done|]; simpl; intros; lia).
  assert (0 < length H)%nat as Hn by (destruct H; [done|simpl; lia]).
  assert (scan_start c s = Z.of_nat (length its)) as Hstart.
  { rewrite Hlen. apply scan_start_saturates; try done.
    subst c. rewrite itemTops_with_heights, Hlen in Ho.
    rewrite build_tops_heights_of in Ho by lia. congruence. }
  split; [done|].
  intros total -> _ _.
  rewrite onScroll_visibleStart, onScroll_visibleEnd, Hstart.
  change (items c) with its. change (buffer c) with 0.
  pose proof (scan_end_at_length c (s + viewportHeight c)) as He.
  change (items c) with its in He. rewrite He. lia.
Qed.

Lemma scan_start_past_last_item_witness :
  let c := with_heights [1; 2; 3]%nat 400 0 [50; 50; 50] in
  scan_start c 120 = 3
  ∧ (∀ total, 0 = 0 → totalContentHeight c = Num total → 120 < total →
       visibleStart (onScroll 120 [] c).1.1 = 3
       ∧ visibleEnd (onScroll 120 [] c).1.1 = 3).
Proof.
  apply (scan_start_past_last_item [1; 2; 3]%nat 400 0 [50; 50; 50]
           120 100 []).
  - reflexivity.
  - discriminate.
  - repeat constructor; lia.
  - reflexivity.
  - lia.
Defined.

(** C5. Over a non-empty list with strictly positive heights and a buffer
    [≥ 0], [onScroll] at [scrollTop = totalContentHeight] gives
    [visibleEnd = itemCount] and [visibleStart = max(0, itemCount - buffer)]. *)
Theorem onScroll_at_total_height {Item : Type} (its : list Item)
  (vh buf : Z) (H : list Z) (s : Z) (els : list Z) :
  length its = length H → H ≠ [] →
  Forall (λ h, 0 < h) H → 0 ≤ buf →
  let c := with_heights its vh buf H in
  totalContentHeight c = Num s →
  visibleEnd (onScroll s els c).1.1 = Z.of_nat (length its)
  ∧ visibleStart (onScroll s els c).1.1
    = Z.max 0 (Z.of_nat (length its) - buf).
Proof.
  intros Hlen Hne Hpos Hbuf c Htot.
  assert (Forall (λ h, 0 ≤ h) H) as Hnn
    by (eapply Forall_impl; [done|]; simpl; intros; lia).
  assert (0 < length H)%nat as Hn by (destruct H; [done|simpl; lia]).
  assert (s = sumZ H) as ->.
  { subst c. unfold with_heights in Htot. simpl in Htot.
    rewrite build_tops_total, sum_heights_of in Htot. congruence. }
  assert (scan_start c (sumZ H) = Z.of_nat (length its)) as Hstart.
  { rewrite Hlen. apply scan_start_saturates; try done.
    destruct (lookup_lt_is_Some_2 H (length H - 1)) as [h Hh]; [lia|].
    assert (0 < h) by (eapply (Forall_lookup_1 _ _ _ _ Hpos); done).
    pose proof (sumZ_take_S _ _ _ Hh) as Hsum.
    rewrite take_ge in Hsum by lia. lia. }
  rewrite onScroll_visibleStart, onScroll_visibleEnd, Hstart.
  change (items c) with its. change (buffer c) with buf.
  pose proof (scan_end_at_length c (sumZ H + viewportHeight c)) as He.
  change (items c) with its in He. rewrite He. lia.
Qed.

Lemma onScroll_at_total_height_witness :
  let c := with_heights [1; 2; 3]%nat 400 2 [50; 80; 20] in
  visibleEnd (onScroll 150 [] c).1.1 = 3
  ∧ visibleStart (onScroll 150 [] c).1.1 = Z.max 0 (3 - 2).
Proof.
  apply (onScroll_at_total_height [1; 2; 3]%nat 400 2 [50; 80; 20] 150 []).
  - reflexivity.
  - discriminate.
  - repeat constructor; lia.
  - lia.
  - reflexivity.
Defined.

(** ** Measuring heights *)

Lemma differs_false (stored : option Z) (height : Z) :
  differs stored height = false ↔ stored = Some height.
Proof.
  destruct stored as [h|]; simpl; [|split; discriminate].
  rewrite negb_false_iff, Z.eqb_eq. split; congruence.
Qed.

(** Measuring an element whose stored height is the measured one leaves
    the state as it is. *)
Lemma measure_element_same vs st idx height :
  mjoin (get st.1 (vs + Z.of_nat idx)) = Some height →
  measure_element vs st idx height = st.
Proof.
  intros Hs. unfold measure_element.
  by rewrite (proj2 (differs_false _ _) Hs).
Qed.

Lemma forEach_measure_same vs els idx st :
  (∀ j height, els !! j = Some height →
     mjoin (get st.1 (vs + Z.of_nat (idx + j))) = Some height) →
  forEach_measure vs els idx st = st.
Proof.
  revert idx. induction els as [|height els IH]; intros idx Hs; [done|].
  simpl. rewrite measure_element_same.
  - apply IH. intros j h' Hj.
    replace (S idx + j)%nat with (idx + S j)%nat by lia. by apply Hs.
  - specialize (Hs 0%nat height eq_refl). by rewrite Nat.add_0_r in Hs.
Qed.

Section MeasureNat.

Implicit Types (v idx j k : nat) (st : list (option Z) * list nat).

Lemma measure_element_nat v st idx height :
  measure_element (Z.of_nat v) st idx height
  = if differs (mjoin (st.1 !! (v + idx)%nat)) height
    then (set st.1 (Z.of_nat (v + idx)) height, st.2 ++ [idx])
    else st.
Proof.
  unfold measure_element. by rewrite <- Nat2Z.inj_add, get_nat.
Qed.

Lemma measure_element_lookup_eq v st idx height :
  mjoin ((measure_element (Z.of_nat v) st idx height).1 !! (v + idx)%nat)
  = Some height.
Proof.
  rewrite measure_element_nat.
  destruct (differs _ height) eqn:Hd; simpl.
  - by rewrite set_nat_lookup_eq.
  - by apply differs_false.
Qed.

Lemma measure_element_lookup_ne v st idx height k :
  k ≠ (v + idx)%nat →
  mjoin ((measure_element (Z.of_nat v) st idx height).1 !! k)
  = mjoin (st.1 !! k).
Proof.
  intros Hk. rewrite measure_element_nat.
  destruct (differs _ height); simpl; [|done].
  by apply set_nat_lookup_ne.
Qed.

Lemma measure_element_length v st idx height :
  length (measure_element (Z.of_nat v) st idx height).1
  = (length st.1 `max` S (v + idx))%nat.
Proof.
  rewrite measure_element_nat.
  destruct (differs _ height) eqn:Hd; simpl.
  - apply set_nat_length.
  - apply differs_false in Hd.
    destruct (st.1 !! (v + idx)%nat) as [s|] eqn:Hl; [|done].
    apply lookup_lt_Some in Hl. lia.
Qed.

Lemma forEach_measure_lookup_outside v els idx st k :
  (k < v + idx ∨ v + idx + length els ≤ k)%nat →
  mjoin ((forEach_measure (Z.of_nat v) els idx st).1 !! k) = mjoin (st.1 !! k).
Proof.
  revert idx st. induction els as [|height els IH]; intros idx st Hk; [done|].
  simpl in *. rewrite IH by lia.
  apply measure_element_lookup_ne. lia.
Qed.

(** After the pass every measured index holds the measured height. *)
Lemma forEach_measure_lookup_inside v els idx st j height :
  els !! j = Some height →
  mjoin ((forEach_measure (Z.of_nat v) els idx st).1 !! (v + (idx + j))%nat)
  = Some height.
Proof.
  revert idx st j. induction els as [|h els IH]; intros idx st j Hj; [done|].
  simpl. destruct j as [|j]; simpl in Hj.
  - injection Hj as ->.
    rewrite forEach_measure_lookup_outside by lia.
    rewrite Nat.add_0_r. apply measure_element_lookup_eq.
  - replace (idx + S j)%nat with (S idx + j)%nat by lia. by apply IH.
Qed.

Lemma forEach_measure_length v els idx st :
  els ≠ [] →
  length (forEach_measure (Z.of_nat v) els idx st).1
  = (length st.1 `max` (v + idx + length els))%nat.
Proof.
  revert idx st. induction els as [|h els IH]; intros idx st Hne; [done|].
  simpl. destruct els as [|h' els].
  - simpl. rewrite measure_element_length. lia.
  - rewrite IH by done. rewrite measure_element_length. simpl. lia.
Qed.

(** Writes inside the array are in-place updates. *)
Lemma forEach_measure_length_in_range v els idx st :
  (v + idx + length els ≤ length st.1)%nat →
  length (forEach_measure (Z.of_nat v) els idx st).1 = length st.1.
Proof.
  intros Hr. destruct els as [|h els]; [done|].
  rewrite forEach_measure_length by done. lia.
Qed.

End MeasureNat.

Lemma sumZ_insert (L : list Z) (k : nat) (old h : Z) :
  L !! k = Some old → sumZ (<[k := h]> L) = sumZ L + (h - old).
Proof.
  revert k. induction L as [|x L IH]; intros [|k] Hk; simpl in *; try done.
  - injection Hk as ->. lia.
  - rewrite (IH k Hk). lia.
Qed.

Section Measure.

Context {Item : Type}.
Implicit Types (c : component Item) (H : list Z).

Lemma measureItemHeights_itemHeights els c :
  itemHeights (measureItemHeights els c).1
  = (forEach_measure (visibleStart c) els 0%nat (itemHeights c, [])).1.
Proof. done. Qed.

Lemma measureItemHeights_itemTops els c :
  itemTops (measureItemHeights els c).1
  = (build_tops (itemHeights (measureItemHeights els c).1)).1.
Proof. done. Qed.

Lemma measureItemHeights_same els c :
  (∀ idx height, els !! idx = Some height →
     mjoin (get (itemHeights c) (visibleStart c + Z.of_nat idx))
     = Some height) →
  forEach_measure (visibleStart c) els 0%nat (itemHeights c, [])
  = (itemHeights c, []).
Proof. intros Hs. by apply forEach_measure_same. Qed.

(** After one pass every rendered element reads its own height back. *)
Lemma measureItemHeights_reads_back els c idx height :
  0 ≤ visibleStart c → els !! idx = Some height →
  mjoin (get (itemHeights (measureItemHeights els c).1)
           (visibleStart c + Z.of_nat idx)) = Some height.
Proof.
  intros Hvs Hidx. rewrite measureItemHeights_itemHeights.
  rewrite <- (Z2Nat.id (visibleStart c)) by done.
  rewrite <- Nat2Z.inj_add, get_nat.
  by apply (forEach_measure_lookup_inside _ _ 0%nat).
Qed.

(** A single measurement of item [k], inside the array. *)
Lemma measure_one_in_range (hs : list (option Z)) (k : nat) (h : Z) :
  (k < length hs)%nat →
  (forEach_measure (Z.of_nat k) [h] 0%nat (hs, [])).1 = <[k := Some h]> hs.
Proof.
  intros Hk. simpl. rewrite measure_element_nat, Nat.add_0_r. simpl.
  destruct (differs _ h) eqn:Hd; simpl.
  - by apply set_nat_in_range.
  - apply differs_false in Hd. symmetry. apply list_insert_id.
    destruct (hs !! k) as [[s|]|]; simpl in Hd; congruence.
Qed.

End Measure.

(** ** Height reconciliation (C2, C8, C10) *)

(** C2. Measuring an element whose stored height is already the measured
    one changes nothing, and a second run of [measureItemHeights] over the
    same measurements overwrites no height: it reports no change and
    leaves the height array as the first run left it. *)
Theorem measureItemHeights_idempotent {Item : Type} (c : component Item)
  (els : list Z) :
  0 ≤ visibleStart c →
  (∀ st idx height,
     mjoin (get st.1 (visibleStart c + Z.of_nat idx)) = Some height →
     measure_element (visibleStart c) st idx height = st)
  ∧ ((∀ idx height, els !! idx = Some height →
        mjoin (get (itemHeights c) (visibleStart c + Z.of_nat idx))
        = Some height) →
     itemHeights (measureItemHeights els c).1 = itemHeights c
     ∧ changed els c = false)
  ∧ (let c' := (measureItemHeights els c).1 in
     changed els c' = false
     ∧ itemHeights (measureItemHeights els c').1 = itemHeights c'
     ∧ measureItemHeights els c' = (c', [])).
Proof.
  intros Hvs. split_and!.
  - intros st idx height. apply measure_element_same.
  - intros Hs. unfold changed.
    rewrite measureItemHeights_itemHeights. unfold measureItemHeights.
    rewrite (measureItemHeights_same els c Hs). done.
  - set (c' := (measureItemHeights els c).1).
    assert (measureItemHeights els c' = (c', [])) as Hm.
    { unfold measureItemHeights.
      rewrite (measureItemHeights_same els c'); [done|].
      intros idx height Hidx.
      by apply (measureItemHeights_reads_back els c). }
    unfold changed. by rewrite Hm.
Qed.

Lemma measureItemHeights_idempotent_witness :
  let c := set_visible 1 3 (with_heights [1; 2; 3]%nat 400 5 [50; 50; 50]) in
  let c' := (measureItemHeights [60; 70] c).1 in
  0 ≤ visibleStart c
  ∧ changed [60; 70] c = true
  ∧ changed [60; 70] c' = false
  ∧ itemHeights (measureItemHeights [60; 70] c').1 = itemHeights c'.
Proof.
  cbv zeta.
  assert (0 ≤ visibleStart
                (set_visible 1 3
                   (with_heights [1; 2; 3]%nat 400 5 [50; 50; 50]))) as Hvs
    by (simpl; lia).
  split; [exact Hvs|]. split; [reflexivity|].
  pose proof (measureItemHeights_idempotent
                (set_visible 1 3
                   (with_heights [1; 2; 3]%nat 400 5 [50; 50; 50]))
                [60; 70] Hvs) as (_ & _ & Hc & Hh & _).
  split; [exact Hc|exact Hh].
Defined.

(** C8. Measuring one item [k] and rebuilding the offsets changes, in the
    height array, only the entry of [k], and leaves the offset of every
    item up to and including [k] as it was; the offsets after [k] move by
    the difference of the heights.  From estimates of [50] throughout,
    measuring item [0] as [80] moves [getItemTop(1)] from [50] to [80], and
    [getItemTop(0)] stays [0]. *)
Theorem single_correction_frame {Item : Type} (its : list Item)
  (vh buf : Z) (H : list Z) (k : nat) (old h : Z) :
  H !! k = Some old →
  let c := set_visible (Z.of_nat k) (Z.of_nat k + 1)
             (with_heights its vh buf H) in
  let c' := (measureItemHeights [h] c).1 in
  itemHeights c' = heights_of (<[k := h]> H)
  ∧ (∀ j : nat, j ≠ k → itemHeights c' !! j = itemHeights c !! j)
  ∧ (∀ i : nat, (i ≤ k)%nat → itemTops c' !! i = itemTops c !! i)
  ∧ (∀ i : Z, i ≤ Z.of_nat k → getItemTop c' i = getItemTop c i)
  ∧ (∀ i : nat, (k < i < length H)%nat →
       getItemTop c' (Z.of_nat i) = getItemTop c (Z.of_nat i) + (h - old))
  ∧ (∀ items50 : list Item, (2 ≤ length items50)%nat →
       let d := initializeHeights (new_component items50) in
       let d' := (measureItemHeights [80] d).1 in
       getItemTop d 1 = 50 ∧ getItemTop d' 1 = 80
       ∧ getItemTop d 0 = 0 ∧ getItemTop d' 0 = 0).
Proof.
  intros Hk c c'.
  assert (k < length H)%nat as Hlt by (by eapply lookup_lt_Some).
  assert (itemHeights c' = heights_of (<[k := h]> H)) as Hhs.
  { subst c'. rewrite measureItemHeights_itemHeights.
    change (visibleStart c) with (Z.of_nat k).
    change (itemHeights c) with (heights_of H).
    rewrite measure_one_in_range by (by rewrite heights_of_length).
    unfold heights_of. by rewrite list_fmap_insert. }
  assert (∀ i : nat, (i < length H)%nat →
            itemTops c' !! i = Some (Num (sumZ (take i (<[k := h]> H)))))
    as Htops'.
  { intros i Hi.
    change (itemTops c') with (build_tops (itemHeights c')).1.
    rewrite Hhs. apply build_tops_heights_of.
    by rewrite length_insert. }
  assert (∀ i : nat, (i < length H)%nat →
            itemTops c !! i = Some (Num (sumZ (take i H)))) as Htops.
  { intros i Hi. by apply build_tops_heights_of. }
  assert (length (itemTops c') = length H) as Hlen'.
  { change (itemTops c') with (build_tops (itemHeights c')).1.
    by rewrite Hhs, build_tops_length, heights_of_length, length_insert. }
  assert (length (itemTops c) = length H) as Hlen.
  { subst c. simpl. by rewrite build_tops_length, heights_of_length. }
  split_and!.
  - done.
  - intros j Hj. rewrite Hhs. change (itemHeights c) with (heights_of H).
    unfold heights_of. by rewrite list_fmap_insert, list_lookup_insert_ne.
  - intros i Hi. rewrite Htops', Htops by lia.
    by rewrite take_insert_ge.
  - intros i Hi. destruct (decide (0 ≤ i)) as [Hnn|Hneg].
    + rewrite <- (Z2Nat.id i) by done.
      rewrite (getItemTop_Num c' _ _ (Htops' (Z.to_nat i) ltac:(lia))).
      rewrite (getItemTop_Num c _ _ (Htops (Z.to_nat i) ltac:(lia))).
      rewrite take_insert_ge by lia. done.
    + rewrite !getItemTop_out_of_range by lia. done.
  - intros i Hi.
    rewrite (getItemTop_Num c' _ _ (Htops' i ltac:(lia))).
    rewrite (getItemTop_Num c _ _ (Htops i ltac:(lia))).
    rewrite take_insert_lt by lia.
    apply sumZ_insert. rewrite lookup_take_lt by lia. done.
  - intros items50 Hn d d'.
    destruct items50 as [|x0 [|x1 rest]]; simpl in Hn; try lia.
    assert (itemHeights d' = Some 80 :: Some 50 :: ((λ _, Some 50) <$> rest))
      as Hd' by done.
    split_and!.
    + apply (getItemTop_Num d 1%nat). subst d. unfold initializeHeights.
      cbn [itemTops updateItemTops set_itemTops].
      rewrite build_tops_lookup by (simpl; lia). done.
    + apply (getItemTop_Num d' 1%nat).
      change (itemTops d') with (build_tops (itemHeights d')).1. rewrite Hd'.
      rewrite build_tops_lookup by (simpl; lia). done.
    + apply (getItemTop_Num d 0%nat). subst d. unfold initializeHeights.
      cbn [itemTops updateItemTops set_itemTops].
      rewrite build_tops_lookup by (simpl; lia). done.
    + apply (getItemTop_Num d' 0%nat).
      change (itemTops d') with (build_tops (itemHeights d')).1. rewrite Hd'.
      rewrite build_tops_lookup by (simpl; lia). done.
Qed.

Lemma single_correction_frame_witness :
  let c := set_visible 1 2 (with_heights [1; 2; 3]%nat 400 5 [50; 50; 50]) in
  let c' := (measureItemHeights [80] c).1 in
  [50; 50; 50] !! 1%nat = Some 50
  ∧ itemHeights c' = heights_of [50; 80; 50]
  ∧ getItemTop c' 1 = getItemTop c 1
  ∧ getItemTop c' 2 = getItemTop c 2 + (80 - 50).
Proof.
  cbv zeta.
  pose proof (single_correction_frame [1; 2; 3]%nat 400 5 [50; 50; 50]
                1%nat 50 80 eq_refl) as (Hhs & _ & _ & Hle & Hgt & _).
  split; [reflexivity|]. split; [exact Hhs|].
  split; [apply (Hle 1); lia|apply (Hgt 2%nat); simpl; lia].
Defined.

(** C10. [measureItemHeights] does not check its indices.  When every index
    [visibleStart + idx] of the batch lies inside the height array, the array
    keeps its length, and the offset table has that length too.  When the
    batch reaches past the end, the array grows to hold the last index, and
    there are batches after which its length is no longer the number of
    items. *)
Theorem measureItemHeights_length {Item : Type} (c : component Item)
  (els : list Z) :
  let c' := (measureItemHeights els c).1 in
  ((∀ idx : nat, (idx < length els)%nat →
      0 ≤ visibleStart c + Z.of_nat idx < Z.of_nat (length (itemHeights c))) →
   length (itemHeights c') = length (itemHeights c)
   ∧ length (itemTops c') = length (itemHeights c'))
  ∧ (0 ≤ visibleStart c → els ≠ [] →
     Z.of_nat (length (itemHeights c))
     < visibleStart c + Z.of_nat (length els) →
     Z.of_nat (length (itemHeights c'))
     = visibleStart c + Z.of_nat (length els))
  ∧ (∃ (d : component nat) (batch : list Z) (idx : nat),
       length (itemHeights d) = length (items d)
       ∧ (idx < length batch)%nat
       ∧ Z.of_nat (length (itemHeights d)) ≤ visibleStart d + Z.of_nat idx
       ∧ length (itemHeights (measureItemHeights batch d).1)
         ≠ length (items (measureItemHeights batch d).1)).
Proof.
  cbv zeta. split_and!.
  - intros Hin.
    change (itemTops (measureItemHeights els c).1)
      with (build_tops (itemHeights (measureItemHeights els c).1)).1.
    rewrite build_tops_length. split; [|done].
    rewrite measureItemHeights_itemHeights.
    destruct els as [|h els]; [done|].
    pose proof (Hin 0%nat ltac:(simpl; lia)) as H0.
    pose proof (Hin (length els) ltac:(simpl; lia)) as Hlast.
    rewrite <- (Z2Nat.id (visibleStart c)) by lia.
    rewrite forEach_measure_length_in_range; [done|]. simpl. lia.
  - intros Hvs Hne Hpast.
    rewrite measureItemHeights_itemHeights.
    rewrite <- (Z2Nat.id (visibleStart c)) at 1 by lia.
    rewrite forEach_measure_length by done. simpl. lia.
  - exists (set_visible 2 3 (with_heights [1; 2; 3]%nat 400 5 [50; 50; 50])),
      [50; 60], 1%nat.
    split_and!; [done|simpl; lia|simpl; lia|]. vm_compute. lia.
Qed.

(** ** Coverage of the viewport (C1) *)

(** C1, at an input where it fails.  Two items of heights [50] and [500],
    a viewport of [400], no buffer, scrolled to [100]: the last item spans
    [[50, 550)] and so overlaps the viewport [[100, 500)], and [onScroll]
    computes the range [(2, 2)], which holds no index. *)
Theorem onScroll_misses_last_item :
  let H := [50; 500] in
  let c := with_heights [1; 2]%nat 400 0 H in
  let c' := (onScroll 100 [] c).1.1 in
  totalContentHeight c = Num 550
  ∧ getItemTop c 1 = 50
  ∧ H !! 1%nat = Some 500
  ∧ overlaps (getItemTop c 1) (getItemTop c 1 + 500) 100 (100 + 400)
  ∧ scan_start c 100 = 2
  ∧ visibleStart c' = 2
  ∧ visibleEnd c' = 2.
Proof.
  cbv zeta. split_and!; try reflexivity.
  exists 100. vm_compute. intuition discriminate.
Qed.

(** X1. Apart from that case the range covers the viewport: over non-negative
    heights and with a buffer [≥ 0], every item that overlaps the viewport
    is in the range computed by [onScroll], unless it is the last item, the
    buffer is [0] and [scrollTop] is above the top of the last item. *)
Theorem onScroll_covers_viewport {Item : Type} (its : list Item)
  (vh buf : Z) (H : list Z) (s : Z) (els : list Z) (i : nat) (hi : Z) :
  length its = length H →
  Forall (λ h, 0 ≤ h) H → 0 ≤ buf →
  H !! i = Some hi →
  let c := with_heights its vh buf H in
  let c' := (onScroll s els c).1.1 in
  overlaps (getItemTop c (Z.of_nat i)) (getItemTop c (Z.of_nat i) + hi)
    s (s + vh) →
  (S i < length H)%nat ∨ 1 ≤ buf
  ∨ s ≤ getItemTop c (Z.of_nat (length H - 1)) →
  visibleStart c' ≤ Z.of_nat i < visibleEnd c'.
Proof.
  intros Hlen Hnn Hbuf Hi c c' (x & Hx1 & Hx2) Hcase.
  assert (i < length H)%nat as Hlt by (by eapply lookup_lt_Some).
  assert (∀ j : nat, (j < length H)%nat →
            getItemTop c (Z.of_nat j) = sumZ (take j H)) as Htop
    by (intros j Hj; by apply getItemTop_with_heights).
  assert (∀ j : Z, Z.of_nat (length H) ≤ j → getItemTop c j = 0) as Hend
    by (intros j Hj; by apply getItemTop_with_heights_end).
  rewrite (Htop i Hlt) in Hx1.
  pose proof (sumZ_take_S H i hi Hi) as HS.
  pose proof (scan_start_bounds c s) as [Hs0 Hsn].
  pose proof (scan_end_bounds c (s + viewportHeight c) _ Hsn) as [He0 Hen].
  change (items c) with its in Hsn, He0, Hen. rewrite Hlen in Hsn, Hen.
  subst c'. rewrite onScroll_visibleStart, onScroll_visibleEnd.
  change (items c) with its. change (buffer c) with buf.
  change (viewportHeight c) with vh in *. rewrite Hlen.
  set (start := scan_start c s) in *.
  set (end_ := scan_end c (s + vh) start) in *.
  assert (∀ j : Z, 0 ≤ j < start → getItemTop c (j + 1) < s) as Hpassed.
  { intros j Hj.
    pose proof (while_incr_passed (length (items c))
                  (λ k, (k <? Z.of_nat (length (items c)))
                        && (getItemTop c (k + 1) <? s)) 0 j Hj) as Hc.
    apply andb_true_iff in Hc as [_ Hc]. by apply Z.ltb_lt. }
  split.
  - destruct (Z_le_gt_dec start (Z.of_nat i)) as [|Hgt]; [lia|].
    pose proof (Hpassed (Z.of_nat i) ltac:(lia)) as Hp.
    destruct (decide (S i < length H)%nat) as [Hin|Hlast].
    + replace (Z.of_nat i + 1) with (Z.of_nat (S i)) in Hp by lia.
      rewrite (Htop (S i) Hin) in Hp. lia.
    + destruct Hcase as [?|[?|Hs]]; [lia|lia|].
      assert (length H - 1 = i)%nat as Hi' by lia. rewrite Hi' in Hs.
      rewrite (Htop i Hlt) in Hs.
      destruct i as [|i'].
      * rewrite (Hend (Z.of_nat 0 + 1)) in Hp by lia. simpl in Hs. lia.
      * pose proof (Hpassed (Z.of_nat i') ltac:(lia)) as Hp'.
        replace (Z.of_nat i' + 1) with (Z.of_nat (S i')) in Hp' by lia.
        rewrite (Htop (S i') Hlt) in Hp'. lia.
  - destruct (Z_le_gt_dec (end_ + buf) (Z.of_nat i)) as [Hle|]; [|lia].
    pose proof (scan_end_exit c (s + vh) start Hs0) as Hex.
    cbv zeta in Hex. fold end_ in Hex.
    change (items c) with its in Hex. rewrite Hlen in Hex.
    apply andb_false_iff in Hex as [Hex|Hex].
    + apply Z.ltb_ge in Hex. lia.
    + apply Z.ltb_ge in Hex.
      rewrite <- (Z2Nat.id end_) in Hex by lia.
      rewrite (Htop (Z.to_nat end_)) in Hex by lia.
      pose proof (sumZ_take_mono H (Z.to_nat end_) i Hnn ltac:(lia)). lia.
Qed.

Lemma onScroll_covers_viewport_witness :
  let c := with_heights [1; 2; 3]%nat 100 1 [50; 50; 500] in
  let c' := (onScroll 120 [] c).1.1 in
  overlaps (getItemTop c 2) (getItemTop c 2 + 500) 120 (120 + 100)
  ∧ visibleStart c' ≤ 2 < visibleEnd c'.
Proof.
  cbv zeta.
  assert (overlaps
            (getItemTop (with_heights [1; 2; 3]%nat 100 1 [50; 50; 500]) 2)
            (getItemTop (with_heights [1; 2; 3]%nat 100 1 [50; 50; 500]) 2
             + 500) 120 (120 + 100)) as Hov
    by (exists 120; vm_compute; intuition discriminate).
  split; [exact Hov|].
  apply (onScroll_covers_viewport [1; 2; 3]%nat 100 1 [50; 50; 500] 120 []
           2%nat 500).
  - reflexivity.
  - repeat constructor; lia.
  - lia.
  - reflexivity.
  - exact Hov.
  - right. left. lia.
Defined.

(** ** Further properties of the specification *)

(** X2. A larger buffer never shrinks the range: with the items, the offset
    table, the viewport and [scrollTop] fixed, [visibleStart] does not grow
    and [visibleEnd] does not shrink when the buffer grows. *)
Theorem onScroll_monotone_in_buffer {Item : Type} (its : list Item)
  (vh buf buf' : Z) (H : list Z) (s : Z) (els els' : list Z) :
  buf ≤ buf' →
  let c := with_heights its vh buf H in
  let d := with_heights its vh buf' H in
  visibleStart (onScroll s els' d).1.1 ≤ visibleStart (onScroll s els c).1.1
  ∧ visibleEnd (onScroll s els c).1.1 ≤ visibleEnd (onScroll s els' d).1.1.
Proof.
  intros Hb c d. rewrite !onScroll_visibleStart, !onScroll_visibleEnd.
  change (scan_start d s) with (scan_start c s).
  change (scan_end d (s + viewportHeight d) (scan_start c s))
    with (scan_end c (s + viewportHeight c) (scan_start c s)).
  change (items d) with (items c).
  change (buffer c) with buf. change (buffer d) with buf'. lia.
Qed.

Lemma onScroll_monotone_in_buffer_witness :
  let c := with_heights [1; 2; 3; 4]%nat 60 0 [50; 50; 50; 50] in
  let d := with_heights [1; 2; 3; 4]%nat 60 1 [50; 50; 50; 50] in
  0 ≤ 1
  ∧ visibleStart (onScroll 70 [] d).1.1 ≤ visibleStart (onScroll 70 [] c).1.1
  ∧ visibleEnd (onScroll 70 [] c).1.1 ≤ visibleEnd (onScroll 70 [] d).1.1.
Proof.
  cbv zeta. split; [lia|].
  apply (onScroll_monotone_in_buffer [1; 2; 3; 4]%nat 60 0 1
           [50; 50; 50; 50] 70 [] []). lia.
Defined.

Lemma sum_heights_replicate (n : nat) (h a : Z) :
  foldl plus (Num a) (replicate n (Some h)) = Num (a + Z.of_nat n * h).
Proof.
  revert a. induction n as [|n IH]; intros a.
  - simpl. f_equal. lia.
  - cbn [replicate foldl plus]. rewrite IH. f_equal. lia.
Qed.

(** X3. Replacing the item list resets every height to [initialItemHeight]
    and the total content height to [itemCount * initialItemHeight]. *)
Theorem ngOnChanges_resets_heights {Item : Type} (c : component Item)
  (its : list Item) :
  let c' := ngOnChanges its c in
  items c' = its
  ∧ itemHeights c' = replicate (length its) (Some (initialItemHeight c))
  ∧ length (itemTops c') = length its
  ∧ totalContentHeight c'
    = Num (Z.of_nat (length its) * initialItemHeight c).
Proof.
  cbv zeta.
  assert (itemHeights (ngOnChanges its c)
          = replicate (length its) (Some (initialItemHeight c))) as Hhs.
  { unfold ngOnChanges, initializeHeights. simpl.
    induction its as [|x its IH]; simpl; [done|]. by rewrite IH. }
  split_and!; [done|done| |].
  - change (itemTops (ngOnChanges its c))
      with (build_tops (itemHeights (ngOnChanges its c))).1.
    by rewrite build_tops_length, Hhs, length_replicate.
  - change (totalContentHeight (ngOnChanges its c))
      with (build_tops (itemHeights (ngOnChanges its c))).2.
    rewrite build_tops_total, Hhs. unfold sum_heights.
    by rewrite sum_heights_replicate.
Qed.

(** An instance: a thousand items at the estimate of [50] have a total height of
    [50000], and [onScroll] at the top, with a viewport of [400] and a
    buffer of [5], gives the range [(0, 13)]. *)
Theorem onScroll_thousand_items :
  let c := ngOnChanges (seq 0 1000) (new_component []) in
  let c' := (onScroll 0 [] c).1.1 in
  totalContentHeight c = Num 50000
  ∧ visibleStart c' = 0
  ∧ visibleEnd c' = 13.
Proof. vm_compute. done. Qed.

(** ** The rendered window *)

Lemma slice_in_range {A : Type} (a : list A) (start end_ : Z) :
  0 ≤ start → start ≤ end_ → end_ ≤ Z.of_nat (length a) →
  slice a start end_
  = take (Z.to_nat (end_ - start)) (drop (Z.to_nat start) a).
Proof.
  intros H0 Hse Hen. unfold slice.
  destruct (start <? 0) eqn:E1; [apply Z.ltb_lt in E1; lia|].
  destruct (end_ <? 0) eqn:E2; [apply Z.ltb_lt in E2; lia|].
  rewrite (Z.min_l start) by lia. rewrite (Z.min_l end_) by lia.
  by rewrite Z.max_l by lia.
Qed.

Lemma onScroll_visibleItems_slice {Item : Type} (c : component Item)
  (scrollTop : Z) (els : list Z) :
  visibleItems (onScroll scrollTop els c).1.1
  = slice (items c) (visibleStart (onScroll scrollTop els c).1.1)
      (visibleEnd (onScroll scrollTop els c).1.1).
Proof. done. Qed.

Lemma onScroll_range_bounds {Item : Type} (c : component Item)
  (scrollTop : Z) (els : list Z) :
  0 ≤ buffer c →
  let c' := (onScroll scrollTop els c).1.1 in
  0 ≤ visibleStart c' ∧ visibleStart c' ≤ visibleEnd c'
  ∧ visibleEnd c' ≤ Z.of_nat (length (items c)).
Proof.
  intros Hb. cbv zeta. rewrite onScroll_visibleStart, onScroll_visibleEnd.
  pose proof (scan_start_bounds c scrollTop) as [Ha Hn].
  pose proof (scan_end_bounds c (scrollTop + viewportHeight c) _ Hn).
  lia.
Qed.

Lemma onScroll_visibleItems_take_drop {Item : Type} (c : component Item)
  (scrollTop : Z) (els : list Z) :
  0 ≤ buffer c →
  let c' := (onScroll scrollTop els c).1.1 in
  visibleItems c'
  = take (Z.to_nat (visibleEnd c' - visibleStart c'))
      (drop (Z.to_nat (visibleStart c')) (items c)).
Proof.
  intros Hb c'.
  destruct (onScroll_range_bounds c scrollTop els Hb) as (H0 & Hse & Hen).
  subst c'. rewrite onScroll_visibleItems_slice. by apply slice_in_range.
Qed.

Lemma onScroll_visibleItems_length {Item : Type} (c : component Item)
  (scrollTop : Z) (els : list Z) :
  0 ≤ buffer c →
  let c' := (onScroll scrollTop els c).1.1 in
  Z.of_nat (length (visibleItems c')) = visibleEnd c' - visibleStart c'.
Proof.
  intros Hb c'.
  destruct (onScroll_range_bounds c scrollTop els Hb) as (H0 & Hse & Hen).
  subst c'. rewrite (onScroll_visibleItems_take_drop c scrollTop els Hb).
  rewrite length_take, length_drop. lia.
Qed.

(** X5. After [onScroll] with a buffer [≥ 0] the rendered items are the
    items from [visibleStart] up to [visibleEnd]: there are
    [visibleEnd - visibleStart] of them, and the one at position [j] is item
    [visibleStart + j]. *)
Theorem onScroll_visibleItems {Item : Type} (c : component Item)
  (scrollTop : Z) (els : list Z) :
  0 ≤ buffer c →
  let c' := (onScroll scrollTop els c).1.1 in
  Z.of_nat (length (visibleItems c')) = visibleEnd c' - visibleStart c'
  ∧ (∀ j : nat, (j < length (visibleItems c'))%nat →
       visibleItems c' !! j
       = items c' !! (Z.to_nat (visibleStart c') + j)%nat)
  ∧ (∀ j : nat, (length (visibleItems c') ≤ j)%nat →
       visibleItems c' !! j = None).
Proof.
  intros Hb c'.
  destruct (onScroll_range_bounds c scrollTop els Hb) as (H0 & Hse & Hen).
  pose proof (onScroll_visibleItems_take_drop c scrollTop els Hb) as Hvis.
  pose proof (onScroll_visibleItems_length c scrollTop els Hb) as Hlen.
  cbv zeta in Hvis, Hlen. fold c' in Hvis, Hlen, H0, Hse, Hen.
  split_and!; [done| |].
  - intros j Hj. rewrite Hvis, lookup_take_lt by lia.
    by rewrite lookup_drop.
  - intros j Hj. by apply lookup_ge_None_2.
Qed.

Lemma onScroll_visibleItems_witness :
  let c := with_heights [10; 20; 30; 40]%nat 60 1 [50; 50; 50; 50] in
  let c' := (onScroll 70 [] c).1.1 in
  0 ≤ buffer c
  ∧ visibleItems c' = [10; 20; 30; 40]%nat
  ∧ Z.of_nat (length (visibleItems c')) = visibleEnd c' - visibleStart c'.
Proof.
  cbv zeta. split; [simpl; lia|]. split; [reflexivity|].
  apply (onScroll_visibleItems
           (with_heights [10; 20; 30; 40]%nat 60 1 [50; 50; 50; 50]) 70 []).
  simpl. lia.
Defined.

Lemma sumZ_lower (L : list Z) (hmin : Z) :
  Forall (λ h, hmin ≤ h) L → Z.of_nat (length L) * hmin ≤ sumZ L.
Proof. induction 1; simpl; lia. Qed.

(** Between two offsets there is room for the items in between. *)
Lemma sumZ_take_gap (H : list Z) (hmin : Z) (i j : nat) :
  Forall (λ h, hmin ≤ h) H → (i ≤ j ≤ length H)%nat →
  (Z.of_nat j - Z.of_nat i) * hmin ≤ sumZ (take j H) - sumZ (take i H).
Proof.
  intros Hmin Hij.
  replace j with (i + (j - i))%nat at 2 by lia.
  rewrite <- take_take_drop, sumZ_app.
  pose proof (sumZ_lower (take (j - i) (drop i H)) hmin
                (Forall_take _ _ _ (Forall_drop _ _ _ Hmin))) as Hl.
  rewrite length_take, length_drop in Hl.
  replace (Z.of_nat ((j - i) `min` (length H - i)))
    with (Z.of_nat j - Z.of_nat i) in Hl by lia.
  lia.
Qed.

(** X6. The rendered window is bounded whatever the length of the list:
    when every height is at least [hmin > 0], [onScroll] renders fewer than
    [viewportHeight / hmin + 2 + 2 * buffer] items. *)
Theorem onScroll_window_bounded {Item : Type} (its : list Item)
  (vh buf : Z) (H : list Z) (hmin s : Z) (els : list Z) :
  length its = length H →
  0 < hmin → Forall (λ h, hmin ≤ h) H →
  0 ≤ buf → 0 ≤ vh →
  let c' := (onScroll s els (with_heights its vh buf H)).1.1 in
  (visibleEnd c' - visibleStart c' - 2 * buf - 2) * hmin < vh
  ∧ (Z.of_nat (length (visibleItems c')) - 2 * buf - 2) * hmin < vh.
Proof.
  intros Hlen Hpos Hmin Hbuf Hvh.
  set (c := with_heights its vh buf H). intros c'.
  assert (∀ j : nat, (j < length H)%nat →
            getItemTop c (Z.of_nat j) = sumZ (take j H)) as Htop
    by (intros j Hj; by apply getItemTop_with_heights).
  pose proof (scan_start_bounds c s) as [Hs0 Hsn].
  pose proof (scan_end_bounds c (s + viewportHeight c) _ Hsn) as [He0 Hen].
  pose proof (scan_start_exit c s) as Hex. cbv zeta in Hex.
  change (items c) with its in Hsn, He0, Hen, Hex.
  change (viewportHeight c) with vh in *. rewrite Hlen in Hsn, Hen, Hex.
  set (start := scan_start c s) in *.
  set (end_ := scan_end c (s + vh) start) in *.
  assert ((end_ - start - 2) * hmin < vh) as Hcore.
  { destruct (Z_le_gt_dec (end_ - start) 1) as [Hsmall|Hbig]; [nia|].
    assert (getItemTop c (end_ - 1) < s + vh) as Hlast.
    { pose proof (while_incr_passed (length (items c))
                    (λ k, (k <? Z.of_nat (length (items c)))
                          && (getItemTop c k <? s + vh)) start (end_ - 1)
                    ltac:(fold end_; unfold scan_end in end_; lia)) as Hc.
      apply andb_true_iff in Hc as [_ Hc]. by apply Z.ltb_lt. }
    apply andb_false_iff in Hex as [Hex|Hex];
      [apply Z.ltb_ge in Hex; lia|]. apply Z.ltb_ge in Hex.
    rewrite <- (Z2Nat.id (end_ - 1)) in Hlast by lia.
    rewrite <- (Z2Nat.id (start + 1)) in Hex by lia.
    rewrite Htop in Hlast by lia. rewrite Htop in Hex by lia.
    pose proof (sumZ_take_gap H hmin (Z.to_nat (start + 1))
                  (Z.to_nat (end_ - 1)) Hmin ltac:(lia)) as Hgap.
    rewrite !Z2Nat.id in Hgap by lia. lia. }
  assert ((visibleEnd c' - visibleStart c' - 2 * buf - 2) * hmin < vh)
    as Hrange.
  { subst c'. rewrite onScroll_visibleStart, onScroll_visibleEnd.
    change (items c) with its. change (buffer c) with buf.
    change (viewportHeight c) with vh. fold start. fold end_.
    rewrite Hlen.
    assert (Z.min (Z.of_nat (length H)) (end_ + buf)
            - Z.max 0 (start - buf) - 2 * buf - 2 ≤ end_ - start - 2)
      as Hle by lia.
    apply (Z.mul_le_mono_nonneg_r _ _ hmin) in Hle; lia. }
  split; [done|].
  pose proof (onScroll_visibleItems_length c s els Hbuf) as Hl.
  cbv zeta in Hl. fold c' in Hl. by rewrite Hl.
Qed.

Lemma onScroll_window_bounded_witness :
  let c' := (onScroll 70 []
               (with_heights [1; 2; 3; 4; 5; 6]%nat 60 1
                  [50; 40; 50; 40; 50; 40])).1.1 in
  (visibleEnd c' - visibleStart c' - 2 * 1 - 2) * 40 < 60
  ∧ (Z.of_nat (length (visibleItems c')) - 2 * 1 - 2) * 40 < 60.
Proof.
  apply (onScroll_window_bounded [1; 2; 3; 4; 5; 6]%nat 60 1
           [50; 40; 50; 40; 50; 40] 40 70 []).
  - reflexivity.
  - lia.
  - repeat constructor; lia.
  - lia.
  - lia.
Defined.

(** ** A batch of measurements *)

Lemma differs_true (stored : option Z) (height : Z) :
  differs stored height = true ↔ stored ≠ Some height.
Proof.
  rewrite <- not_false_iff_true, differs_false. done.
Qed.

(** The elements put under observation are those whose stored height, as it
    was before the pass, is not the measured one. *)
Lemma forEach_measure_observed (v : nat) els (idx : nat) st (j : nat) :
  j ∈ (forEach_measure (Z.of_nat v) els idx st).2
  ↔ j ∈ st.2
    ∨ ∃ i height, j = (idx + i)%nat ∧ els !! i = Some height
        ∧ mjoin (st.1 !! (v + (idx + i))%nat) ≠ Some height.
Proof.
  revert idx st. induction els as [|a els IH]; intros idx st.
  { simpl. split; [by left|]. by intros [?|(i & h & _ & ? & _)]. }
  simpl. rewrite IH. clear IH.
  assert (∀ i, mjoin ((measure_element (Z.of_nat v) st idx a).1
                        !! (v + (S idx + i))%nat)
               = mjoin (st.1 !! (v + (S idx + i))%nat)) as Hsame
    by (intros i; apply measure_element_lookup_ne; lia).
  assert (j ∈ (measure_element (Z.of_nat v) st idx a).2
          ↔ j ∈ st.2 ∨ (j = idx ∧ mjoin (st.1 !! (v + idx)%nat) ≠ Some a))
    as Hobs.
  { rewrite measure_element_nat.
    destruct (differs (mjoin (st.1 !! (v + idx)%nat)) a) eqn:Hd.
    - apply differs_true in Hd. simpl.
      rewrite elem_of_app, list_elem_of_singleton. tauto.
    - apply differs_false in Hd. tauto. }
  rewrite Hobs. clear Hobs.
  set (st' := measure_element (Z.of_nat v) st idx a) in *.
  split.
  - intros [[?|[-> Hne]]|(i & h & -> & Hi & Hne)]; [by left| |].
    + right. exists 0%nat, a. by rewrite Nat.add_0_r.
    + right. exists (S i), h. rewrite Hsame in Hne.
      replace (idx + S i)%nat with (S idx + i)%nat by lia. done.
  - intros [?|(i & h & -> & Hi & Hne)]; [by left; left|].
    destruct i as [|i]; simpl in Hi.
    + injection Hi as ->. rewrite Nat.add_0_r in *. left. by right.
    + right. exists i, h. rewrite Hsame.
      replace (S idx + i)%nat with (idx + S i)%nat by lia. done.
Qed.

(** X7. A run of [measureItemHeights] over the rendered elements leaves, at
    the index of every element, the height measured for it, and leaves every
    other entry of the height array as it read before; the elements it puts
    under observation are exactly those whose stored height was not the
    measured one. *)
Theorem measureItemHeights_batch {Item : Type} (c : component Item)
  (els : list Z) :
  0 ≤ visibleStart c →
  let r := measureItemHeights els c in
  (∀ (idx : nat) height, els !! idx = Some height →
     mjoin (get (itemHeights r.1) (visibleStart c + Z.of_nat idx))
     = Some height)
  ∧ (∀ k : Z,
       k < visibleStart c ∨ visibleStart c + Z.of_nat (length els) ≤ k →
       mjoin (get (itemHeights r.1) k) = mjoin (get (itemHeights c) k))
  ∧ (∀ idx : nat,
       idx ∈ r.2
       ↔ ∃ height, els !! idx = Some height
           ∧ mjoin (get (itemHeights c) (visibleStart c + Z.of_nat idx))
             ≠ Some height).
Proof.
  intros Hvs r. split_and!.
  - intros idx height Hidx. by apply measureItemHeights_reads_back.
  - intros k Hk. subst r. rewrite measureItemHeights_itemHeights.
    destruct (Z_lt_le_dec k 0) as [Hneg|Hnn].
    + rewrite !get_out_of_range by lia. done.
    + rewrite <- (Z2Nat.id k) by done. rewrite !get_nat.
      rewrite <- (Z2Nat.id (visibleStart c)) at 1 by done.
      apply forEach_measure_lookup_outside. lia.
  - intros idx. subst r. unfold measureItemHeights. cbn [snd].
    rewrite <- (Z2Nat.id (visibleStart c)) at 1 by done.
    rewrite forEach_measure_observed. cbn [fst snd]. split.
    + intros [Hin|(i & h & -> & Hi & Hne)]; [by apply elem_of_nil in Hin|].
      exists h. split; [done|].
      rewrite <- (Z2Nat.id (visibleStart c)) by done.
      by rewrite <- Nat2Z.inj_add, get_nat.
    + intros (h & Hi & Hne). right. exists idx, h. split_and!; [done|done|].
      rewrite <- (Z2Nat.id (visibleStart c)) in Hne by done.
      by rewrite <- Nat2Z.inj_add, get_nat in Hne.
Qed.

Lemma measureItemHeights_batch_witness :
  let c := set_visible 1 3 (with_heights [1; 2; 3]%nat 400 5 [50; 50; 50]) in
  let r := measureItemHeights [50; 70] c in
  0 ≤ visibleStart c
  ∧ itemHeights r.1 = heights_of [50; 50; 70]
  ∧ r.2 = [1%nat]
  ∧ mjoin (get (itemHeights r.1) (visibleStart c + Z.of_nat 1)) = Some 70.
Proof.
  cbv zeta.
  assert (0 ≤ visibleStart
                (set_visible 1 3
                   (with_heights [1; 2; 3]%nat 400 5 [50; 50; 50]))) as Hvs
    by (simpl; lia).
  split; [exact Hvs|]. split; [reflexivity|]. split; [reflexivity|].
  pose proof (measureItemHeights_batch
                (set_visible 1 3
                   (with_heights [1; 2; 3]%nat 400 5 [50; 50; 50]))
                [50; 70] Hvs) as (Hin & _ & _).
  apply (Hin 1%nat 70). reflexivity.
Defined.

(** ** Invariants over the events *)

Lemma set_length_ge {A : Type} (a : list (option A)) (i : Z) (v : A) :
  (length a ≤ length (set a i v))%nat.
Proof.
  unfold set. destruct (i <? 0); [done|]. case_decide.
  - by rewrite length_insert.
  - rewrite length_app. lia.
Qed.

Lemma forEach_measure_length_ge vs els idx st :
  (length st.1 ≤ length (forEach_measure vs els idx st).1)%nat.
Proof.
  revert idx st. induction els as [|h els IH]; intros idx st; [done|].
  simpl. etrans; [|apply IH].
  unfold measure_element. destruct (differs _ h); [|done].
  apply set_length_ge.
Qed.

Section Invariants.

Context {Item : Type}.
Implicit Types (c : component Item) (e : event Item) (es : list (event Item)).

Lemma run_snoc es e c : run (es ++ [e]) c = handle e (run es c).
Proof. unfold run. by rewrite foldl_app. Qed.

Lemma handle_buffer e c : buffer (handle e c) = buffer c.
Proof. by destruct e. Qed.

Lemma handle_tables_in_sync e c : tables_in_sync (handle e c).
Proof. by destruct e. Qed.

Lemma handle_items_le e c :
  (length (items c) ≤ length (itemHeights c))%nat →
  (length (items (handle e c)) ≤ length (itemHeights (handle e c)))%nat.
Proof.
  intros Hle.
  assert (∀ d : component Item,
            items d = items c → itemHeights d = itemHeights c →
            ∀ els,
            (length (items (measureItemHeights els d).1)
             ≤ length (itemHeights (measureItemHeights els d).1))%nat)
    as Hmeasure.
  { intros d Hi Hh els. rewrite measureItemHeights_itemHeights.
    change (items (measureItemHeights els d).1) with (items d).
    etrans; [|apply forEach_measure_length_ge]. simpl.
    by rewrite Hi, Hh. }
  destruct e as [|its|s els|s els|els].
  - simpl. by rewrite length_map.
  - simpl. by rewrite length_map.
  - set (d := calculateHeights c).
    exact (Hmeasure
             (set_visible (Z.max 0 (scan_start d s - buffer d))
                (Z.min (Z.of_nat (length (items d)))
                   (scan_end d (s + viewportHeight d) (scan_start d s)
                    + buffer d)) d) eq_refl eq_refl els).
  - exact (Hmeasure
             (set_visible (Z.max 0 (scan_start c s - buffer c))
                (Z.min (Z.of_nat (length (items c)))
                   (scan_end c (s + viewportHeight c) (scan_start c s)
                    + buffer c)) c) eq_refl eq_refl els).
  - by apply Hmeasure.
Qed.

Lemma handle_range_ordered e c :
  0 ≤ buffer c →
  0 ≤ visibleStart c ≤ visibleEnd c →
  0 ≤ visibleStart (handle e c) ≤ visibleEnd (handle e c).
Proof.
  intros Hb Hr. destruct e as [|its|s els|s els|els]; try done.
  - pose proof (onScroll_range_bounds (calculateHeights c) s els Hb).
    simpl in *. lia.
  - pose proof (onScroll_range_bounds c s els Hb). simpl in *. lia.
Qed.

End Invariants.

(** X8. Whatever events follow [ngOnInit], in whatever order and with
    whatever the DOM reports, the component keeps: the offset table and the
    total are the ones built from the current heights; the table has one
    entry per height; there is a height for every item; and
    [0 ≤ visibleStart ≤ visibleEnd].  The buffer is never written. *)
Theorem events_keep_tables_in_sync {Item : Type} (c : component Item)
  (es : list (event Item)) :
  0 ≤ buffer c →
  0 ≤ visibleStart c ≤ visibleEnd c →
  let c' := run (NgOnInit :: es) c in
  tables_in_sync c'
  ∧ length (itemTops c') = length (itemHeights c')
  ∧ (length (items c') ≤ length (itemHeights c'))%nat
  ∧ 0 ≤ visibleStart c' ≤ visibleEnd c'
  ∧ buffer c' = buffer c.
Proof.
  intros Hb Hr. cbv zeta.
  induction es as [|e es IH] using rev_ind.
  - split_and!; try done.
    + simpl. by rewrite build_tops_length.
    + simpl. by rewrite length_map.
    + simpl. lia.
    + simpl. lia.
  - rewrite app_comm_cons, run_snoc.
    destruct IH as (Hsync & Hlen & Hitems & Hrange & Hbuf).
    pose proof (handle_tables_in_sync e (run (NgOnInit :: es) c))
      as Hsync'.
    split_and!.
    + done.
    + destruct Hsync' as [-> _]. by rewrite build_tops_length.
    + by apply handle_items_le.
    + apply handle_range_ordered; [by rewrite Hbuf|done].
    + apply handle_range_ordered; [by rewrite Hbuf|done].
    + by rewrite handle_buffer.
Qed.

Lemma events_keep_tables_in_sync_witness :
  let c := new_component [1; 2; 3]%nat in
  let c' := run [NgOnInit; Refresh 0 []; Scroll 60 [40; 50; 50];
                 NgOnChanges [7]%nat; Measure [30; 30; 30]] c in
  itemHeights c' = heights_of [30; 30; 30]
  ∧ tables_in_sync c'
  ∧ (length (items c') ≤ length (itemHeights c'))%nat.
Proof.
  cbv zeta. split; [reflexivity|].
  pose proof (events_keep_tables_in_sync (new_component [1; 2; 3]%nat)
                [Refresh 0 []; Scroll 60 [40; 50; 50];
                 NgOnChanges [7]%nat; Measure [30; 30; 30]]
                ltac:(simpl; lia) ltac:(simpl; lia))
    as (Hsync & _ & Hitems & _).
  split; [exact Hsync|exact Hitems].
Defined.

(** ** A fixed list of items *)

Lemma measure_element_numbers (P : Z → Prop) (v idx : nat) (H : list Z)
  (st : list (option Z) * list nat) (a : Z) :
  st.1 = heights_of H →
  (v + idx ≤ length H)%nat → Forall P H → P a →
  ∃ H1, (measure_element (Z.of_nat v) st idx a).1 = heights_of H1
        ∧ (v + S idx ≤ length H1)%nat
        ∧ (length H ≤ length H1)%nat
        ∧ Forall P H1.
Proof.
  intros Hst Hle HP Ha. rewrite measure_element_nat, Hst.
  destruct (differs _ a) eqn:Hd; cbn [fst].
  - unfold set.
    destruct (Z.of_nat (v + idx) <? 0) eqn:E; [apply Z.ltb_lt in E; lia|].
    rewrite Nat2Z.id, heights_of_length. case_decide as Hlt.
    + exists (<[(v + idx)%nat := a]> H). split_and!.
      * unfold heights_of. by rewrite list_fmap_insert.
      * rewrite length_insert. lia.
      * by rewrite length_insert.
      * by apply Forall_insert.
    + exists (H ++ [a]). split_and!.
      * replace (v + idx - length H)%nat with 0%nat by lia.
        unfold heights_of. by rewrite fmap_app.
      * rewrite length_app. simpl. lia.
      * rewrite length_app. lia.
      * apply Forall_app. split; [done|]. by constructor.
  - exists H. split_and!; try done.
    apply differs_false in Hd.
    destruct (heights_of H !! (v + idx)%nat) as [s|] eqn:Hl; [|done].
    apply lookup_lt_Some in Hl. rewrite heights_of_length in Hl. lia.
Qed.

(** Measuring from an index inside or at the end of a height array without
    holes leaves an array without holes. *)
Lemma forEach_measure_numbers (P : Z → Prop) (v : nat) els (idx : nat)
  (H : list Z) (st : list (option Z) * list nat) :
  st.1 = heights_of H →
  (v + idx ≤ length H)%nat → Forall P H → Forall P els →
  ∃ H', (forEach_measure (Z.of_nat v) els idx st).1 = heights_of H'
        ∧ (length H ≤ length H')%nat
        ∧ Forall P H'.
Proof.
  revert idx H st. induction els as [|a els IH]; intros idx H st Hst Hle HP Hels.
  { exists H. by split_and!. }
  apply Forall_cons in Hels as [Ha Hels]. simpl.
  destruct (measure_element_numbers P v idx H st a Hst Hle HP Ha)
    as (H1 & Hst1 & Hle1 & Hlen1 & HP1).
  destruct (IH (S idx) H1 _ Hst1 Hle1 HP1 Hels) as (H' & Hst' & Hlen' & HP').
  exists H'. split_and!; [done|lia|done].
Qed.

Section FixedList.

Context {Item : Type}.
Implicit Types (c : component Item) (e : event Item) (es : list (event Item)).

Lemma getItemTop_in_sync c (H : list Z) (i : nat) :
  tables_in_sync c → itemHeights c = heights_of H → (i < length H)%nat →
  getItemTop c (Z.of_nat i) = sumZ (take i H).
Proof.
  intros [Ht _] Hh Hi. apply getItemTop_Num.
  rewrite Ht, Hh. by apply build_tops_heights_of.
Qed.

Lemma measureItemHeights_numbers (P : Z → Prop) c (H : list Z) els :
  itemHeights c = heights_of H →
  0 ≤ visibleStart c ≤ Z.of_nat (length H) →
  Forall P H → Forall P els →
  ∃ H', itemHeights (measureItemHeights els c).1 = heights_of H'
        ∧ (length H ≤ length H')%nat
        ∧ Forall P H'.
Proof.
  intros Hh Hvs HP Hels. rewrite measureItemHeights_itemHeights.
  rewrite <- (Z2Nat.id (visibleStart c)) by lia.
  apply (forEach_measure_numbers P _ els 0%nat H); [done|lia|done|done].
Qed.

Lemma handle_dom_event_numbers (P : Z → Prop) e c (H : list Z) :
  dom_event e → Forall P (measured e) →
  0 ≤ buffer c →
  itemHeights c = heights_of H → Forall P H →
  (length (items c) ≤ length H)%nat →
  0 ≤ visibleStart c ≤ Z.of_nat (length H) →
  ∃ H', itemHeights (handle e c) = heights_of H'
        ∧ Forall P H'
        ∧ (length H ≤ length H')%nat
        ∧ 0 ≤ visibleStart (handle e c) ≤ Z.of_nat (length H')
        ∧ items (handle e c) = items c.
Proof.
  intros Hdom Hels Hb Hh HP Hitems Hvs.
  destruct e as [|its|s els|s els|els]; try done; simpl in Hels.
  - set (d := calculateHeights c).
    pose proof (scan_start_bounds d s) as [Hs0 Hsn].
    change (items d) with (items c) in Hsn.
    assert (buffer d = buffer c) as Hbd by done.
    destruct (measureItemHeights_numbers P
                (set_visible (Z.max 0 (scan_start d s - buffer d))
                   (Z.min (Z.of_nat (length (items d)))
                      (scan_end d (s + viewportHeight d) (scan_start d s)
                       + buffer d)) d) H els Hh)
      as (H' & Hh' & Hlen' & HP'); [|done|done|].
    + simpl. lia.
    + exists H'. split_and!; try done.
      * change (visibleStart (handle (Refresh s els) c))
          with (Z.max 0 (scan_start d s - buffer d)). lia.
      * change (visibleStart (handle (Refresh s els) c))
          with (Z.max 0 (scan_start d s - buffer d)). lia.
  - pose proof (scan_start_bounds c s) as [Hs0 Hsn].
    destruct (measureItemHeights_numbers P
                (set_visible (Z.max 0 (scan_start c s - buffer c))
                   (Z.min (Z.of_nat (length (items c)))
                      (scan_end c (s + viewportHeight c) (scan_start c s)
                       + buffer c)) c) H els Hh)
      as (H' & Hh' & Hlen' & HP'); [|done|done|].
    + simpl. lia.
    + exists H'. split_and!; try done.
      * change (visibleStart (handle (Scroll s els) c))
          with (Z.max 0 (scan_start c s - buffer c)). lia.
      * change (visibleStart (handle (Scroll s els) c))
          with (Z.max 0 (scan_start c s - buffer c)). lia.
  - destruct (measureItemHeights_numbers P c H els Hh Hvs HP Hels)
      as (H' & Hh' & Hlen' & HP').
    exists H'. split_and!; try done.
    all: change (visibleStart (handle (Measure els) c)) with (visibleStart c).
    all: lia.
Qed.

End FixedList.

(** X9. While the item list is not replaced, scrolling and measuring in any
    order keep the heights numbers: after [ngOnInit] with an estimate [≥ 0]
    and any sequence of scroll, refresh and measure events that report
    heights [≥ 0], the height array has no hole and holds heights [≥ 0], at
    least one per item, [totalContentHeight] is their sum, and the offsets
    do not decrease along the table and stay below the total. *)
Theorem fixed_list_keeps_numbers {Item : Type} (c : component Item)
  (es : list (event Item)) :
  0 ≤ buffer c → 0 ≤ initialItemHeight c →
  0 ≤ visibleStart c ≤ Z.of_nat (length (items c)) →
  Forall dom_event es →
  Forall (λ e, Forall (λ h, 0 ≤ h) (measured e)) es →
  let c' := run (NgOnInit :: es) c in
  items c' = items c
  ∧ ∃ H : list Z,
      itemHeights c' = heights_of H
      ∧ Forall (λ h, 0 ≤ h) H
      ∧ (length (items c) ≤ length H)%nat
      ∧ totalContentHeight c' = Num (sumZ H)
      ∧ (∀ i j : nat, (i ≤ j < length H)%nat →
           getItemTop c' (Z.of_nat i) ≤ getItemTop c' (Z.of_nat j)
           ∧ getItemTop c' (Z.of_nat j) ≤ sumZ H).
Proof.
  intros Hb Hh0 Hvs Hdom Hels. cbv zeta.
  assert (items (run (NgOnInit :: es) c) = items c
          ∧ buffer (run (NgOnInit :: es) c) = buffer c
          ∧ tables_in_sync (run (NgOnInit :: es) c)
          ∧ ∃ H : list Z,
              itemHeights (run (NgOnInit :: es) c) = heights_of H
              ∧ Forall (λ h, 0 ≤ h) H
              ∧ (length (items c) ≤ length H)%nat
              ∧ 0 ≤ visibleStart (run (NgOnInit :: es) c)
                ≤ Z.of_nat (length H)) as (Hi & _ & Hsync & H & Hh & HP & Hlen & _).
  { induction es as [|e es IH] using rev_ind.
    - split_and!; try done.
      exists (replicate (length (items c)) (initialItemHeight c)).
      split_and!.
      + simpl. unfold heights_of. generalize (items c).
        induction l as [|x l IHl]; simpl; [done|]. by rewrite IHl.
      + by apply Forall_replicate.
      + by rewrite length_replicate.
      + simpl. lia.
      + simpl. rewrite length_replicate. lia.
    - apply Forall_app in Hdom as [Hdom [He _]%Forall_cons].
      apply Forall_app in Hels as [Hels [Hm _]%Forall_cons].
      destruct (IH Hdom Hels) as (Hi & Hbuf & _ & H & Hh & HP & Hlen & Hr).
      rewrite app_comm_cons, run_snoc.
      destruct (handle_dom_event_numbers (λ h, 0 ≤ h) e
                  (run (NgOnInit :: es) c) H He Hm)
        as (H' & Hh' & HP' & Hlen' & Hr' & Hi'); try done.
      { by rewrite Hbuf. }
      { by rewrite Hi. }
      split_and!.
      + by rewrite Hi'.
      + by rewrite handle_buffer.
      + apply handle_tables_in_sync.
      + exists H'. split_and!; try done; lia. }
  split; [done|]. exists H. split_and!; try done.
  - destruct Hsync as [_ ->]. by rewrite Hh, build_tops_total, sum_heights_of.
  - intros i j Hij.
    rewrite !(getItemTop_in_sync _ H) by (done || lia).
    split.
    + apply sumZ_take_mono; [done|lia].
    + rewrite <- (take_ge H (length H)) at 2 by lia.
      apply sumZ_take_mono; [done|lia].
Qed.

Lemma fixed_list_keeps_numbers_witness :
  let c := new_component [1; 2; 3]%nat in
  let c' := run [NgOnInit; Refresh 0 []; Scroll 60 [40; 50; 50];
                 Measure [45; 50; 50]] c in
  itemHeights c' = heights_of [45; 50; 50]
  ∧ items c' = items c.
Proof.
  cbv zeta. split; [reflexivity|].
  apply (fixed_list_keeps_numbers (new_component [1; 2; 3]%nat)
           [Refresh 0 []; Scroll 60 [40; 50; 50]; Measure [45; 50; 50]]).
  - simpl. lia.
  - simpl. lia.
  - simpl. lia.
  - repeat constructor.
  - repeat constructor; lia.
Defined.

(** ** The position of the rendered elements *)







(** ** The first window and the deferred refresh *)

Lemma while_incr_first fuel n (p : Z → bool) i r :
  i ≤ r ≤ n → n - i ≤ Z.of_nat fuel →
  (∀ j, i ≤ j < r → p j = true) →
  (r < n → p r = false) →
  while_incr fuel (λ k, (k <? n) && p k) i = r.
Proof.
  intros Hr Hf Hpass Hstop.
  set (cond := λ k, (k <? n) && p k).
  pose proof (while_incr_ge fuel cond i) as Hge.
  pose proof (while_incr_le fuel n p i ltac:(lia)) as Hle. fold cond in Hle.
  pose proof (while_incr_exit fuel n p i Hf) as Hex.
  cbv zeta in Hex. fold cond in Hex.
  destruct (Z.lt_trichotomy (while_incr fuel cond i) r) as [Hlt|[?|Hgt]];
    [|done|].
  - rewrite Hpass in Hex by lia.
    assert ((while_incr fuel cond i <? n) = true) as Hn
      by (apply Z.ltb_lt; lia).
    by rewrite Hn in Hex.
  - pose proof (while_incr_passed fuel cond i r ltac:(lia)) as Hc.
    unfold cond in Hc. apply andb_true_iff in Hc as [_ Hc].
    rewrite Hstop in Hc by lia. done.
Qed.

Lemma sumZ_replicate (n : nat) (h : Z) :
  sumZ (replicate n h) = Z.of_nat n * h.
Proof.
  induction n as [|n IH]; [done|]. rewrite Nat2Z.inj_succ.
  change (sumZ (replicate (S n) h)) with (h + sumZ (replicate n h)).
  rewrite IH. lia.
Qed.

Lemma ngOnChanges_itemHeights {Item : Type} (c : component Item)
  (its : list Item) :
  itemHeights (ngOnChanges its c)
  = heights_of (replicate (length its) (initialItemHeight c)).
Proof.
  unfold ngOnChanges, initializeHeights, heights_of. simpl.
  induction its as [|x its IH]; simpl; [done|]. by rewrite IH.
Qed.

Lemma ngOnChanges_getItemTop {Item : Type} (c : component Item)
  (its : list Item) (j : nat) :
  (j < length its)%nat →
  getItemTop (ngOnChanges its c) (Z.of_nat j)
  = Z.of_nat j * initialItemHeight c.
Proof.
  intros Hj.
  rewrite (getItemTop_in_sync _
             (replicate (length its) (initialItemHeight c))).
  - rewrite take_replicate, sumZ_replicate. f_equal. lia.
  - done.
  - apply ngOnChanges_itemHeights.
  - by rewrite length_replicate.
Qed.

(** X4. The first window over a new list: after [ngOnChanges], with an
    estimate [h > 0], a viewport [> 0] and a buffer [≥ 0], [onScroll] at the
    top gives [visibleStart = 0] and
    [visibleEnd = min(itemCount, ceil(viewportHeight / h) + buffer)]. *)
Theorem onScroll_first_window {Item : Type} (c : component Item)
  (its : list Item) (els : list Z) :
  0 < initialItemHeight c → 0 < viewportHeight c → 0 ≤ buffer c →
  let d := (onScroll 0 els (ngOnChanges its c)).1.1 in
  visibleStart d = 0
  ∧ visibleEnd d
    = Z.min (Z.of_nat (length its))
        ((viewportHeight c + initialItemHeight c - 1) / initialItemHeight c
         + buffer c).
Proof.
  intros Hh Hvh Hb. cbv zeta.
  set (d := ngOnChanges its c).
  set (h := initialItemHeight c) in *. set (vh := viewportHeight c) in *.
  set (q := (vh + h - 1) / h).
  assert (vh ≤ h * q) as Hq1.
  { pose proof (Z.mul_succ_div_gt (vh + h - 1) h Hh). fold q in H. lia. }
  assert (h * q ≤ vh + h - 1) as Hq2 by (apply Z.mul_div_le; lia).
  assert (1 ≤ q) as Hq3 by nia.
  assert (scan_start d 0 = 0) as Hstart.
  { unfold scan_start. change (items d) with its.
    apply (while_incr_first _ _ (λ k, getItemTop d (k + 1) <? 0));
      [lia|lia|lia|].
    intros Hn. apply Z.ltb_ge.
    destruct (decide (1 < Z.of_nat (length its))) as [H1|H1].
    - change (0 + 1) with (Z.of_nat 1). subst d.
      rewrite ngOnChanges_getItemTop by lia. fold h. lia.
    - rewrite getItemTop_out_of_range; [lia|]. right.
      change (itemTops d) with (build_tops (itemHeights d)).1.
      subst d. rewrite build_tops_length, ngOnChanges_itemHeights.
      rewrite heights_of_length, length_replicate. lia. }
  assert (scan_end d (0 + vh) 0 = Z.min (Z.of_nat (length its)) q) as Hend.
  { unfold scan_end. change (items d) with its.
    apply (while_incr_first _ _ (λ k, getItemTop d k <? 0 + vh));
      [lia|lia| |].
    - intros j Hj. apply Z.ltb_lt.
      rewrite <- (Z2Nat.id j) by lia. subst d.
      rewrite ngOnChanges_getItemTop by lia. fold h. nia.
    - intros Hn. apply Z.ltb_ge.
      rewrite Z.min_r by lia.
      rewrite <- (Z2Nat.id q) by lia. subst d.
      rewrite ngOnChanges_getItemTop by lia. fold h.
      rewrite Z2Nat.id by lia. lia. }
  rewrite onScroll_visibleStart, onScroll_visibleEnd, Hstart.
  change (viewportHeight d) with vh. change (buffer d) with (buffer c).
  change (items d) with its. rewrite Hend. lia.
Qed.

Lemma onScroll_first_window_witness :
  let c := Component [] 120 1 50 [] [] (Num 0) 0 0 [] in
  let d := (onScroll 0 [] (ngOnChanges [1; 2; 3; 4; 5; 6]%nat c)).1.1 in
  visibleStart d = 0 ∧ visibleEnd d = 4.
Proof.
  apply (onScroll_first_window (Component [] 120 1 50 [] [] (Num 0) 0 0 [])
           [1; 2; 3; 4; 5; 6]%nat []); simpl; lia.
Defined.

(** X11. On a component whose tables are in step with its heights,
    [calculateHeights] changes nothing, so the task that [ngOnChanges] and
    [ngAfterViewInit] defer does what [onScroll] alone does; that is the
    case after every event. *)
Theorem deferred_refresh_is_onScroll {Item : Type} (c : component Item)
  (scrollTop : Z) (els : list Z) :
  tables_in_sync c →
  calculateHeights c = c
  ∧ deferred_refresh scrollTop els c = onScroll scrollTop els c
  ∧ (∀ e : event Item,
       deferred_refresh scrollTop els (handle e c)
       = onScroll scrollTop els (handle e c)).
Proof.
  intros [Ht Htot].
  assert (∀ d : component Item, tables_in_sync d → calculateHeights d = d)
    as Hcalc.
  { intros d [Hdt Hdtot]. unfold calculateHeights, updateItemTops.
    rewrite <- Hdt, <- Hdtot. by destruct d. }
  split_and!.
  - by apply Hcalc.
  - unfold deferred_refresh. by rewrite Hcalc.
  - intros e. unfold deferred_refresh.
    by rewrite (Hcalc _ (handle_tables_in_sync e c)).
Qed.

Lemma deferred_refresh_is_onScroll_witness :
  let c := with_heights [1; 2; 3]%nat 60 0 [50; 50; 50] in
  tables_in_sync c
  ∧ deferred_refresh 70 [50] c = onScroll 70 [50] c.
Proof.
  cbv zeta.
  assert (tables_in_sync (with_heights [1; 2; 3]%nat 60 0 [50; 50; 50]))
    as Hsync by done.
  split; [exact Hsync|].
  exact (proj1 (proj2 (deferred_refresh_is_onScroll
                         (with_heights [1; 2; 3]%nat 60 0 [50; 50; 50])
                         70 [50] Hsync))).
Defined.

(** ** The options of the demo *)

Lemma collection_modes_lookup (len i : nat) :
  (i < len)%nat →
  App.collection_modes len !! i = Some (App.collection_mode i).
Proof.
  intros Hi. unfold App.collection_modes, App.array_from.
  rewrite list_lookup_fmap, lookup_seq_lt by done. done.
Qed.

Lemma collection_modes_length (len : nat) :
  length (App.collection_modes len) = len.
Proof.
  unfold App.collection_modes, App.array_from.
  by rewrite length_fmap, length_seq.
Qed.

Lemma collection_modes_lookup_Some (len i : nat) (m : App.mode) :
  App.collection_modes len !! i = Some m →
  (i < len)%nat ∧ m = App.collection_mode i.
Proof.
  intros Hm. assert (i < len)%nat as Hi.
  { apply lookup_lt_Some in Hm. by rewrite collection_modes_length in Hm. }
  rewrite collection_modes_lookup in Hm by done. split; congruence.
Qed.

(** X12. [COLLECTION_MODES] holds a million options.  The option at index
    [i] has the decimal numeral of [i] as its value and the city at
    [i mod 5] as its label, which is never [undefined]; so the values are
    pairwise distinct, and the labels repeat with period five. *)
Theorem COLLECTION_MODES_entries :
  length App.COLLECTION_MODES = N.to_nat 1000000
  ∧ (∀ (i : nat) (m : App.mode),
       App.COLLECTION_MODES !! i = Some m →
       App.value m = pretty i
       ∧ ∃ city, App.label m = Some city
                 ∧ App.cities !! (i `mod` 5)%nat = Some city)
  ∧ (∀ (i j : nat) (m n : App.mode),
       App.COLLECTION_MODES !! i = Some m →
       App.COLLECTION_MODES !! j = Some n →
       App.value m = App.value n → i = j)
  ∧ (∀ (i : nat) (m n : App.mode),
       App.COLLECTION_MODES !! i = Some m →
       App.COLLECTION_MODES !! (i + 5)%nat = Some n →
       App.label m = App.label n).
Proof.
  unfold App.COLLECTION_MODES. generalize (N.to_nat 1000000). intros len.
  split_and!.
  - apply collection_modes_length.
  - intros i m [_ ->]%collection_modes_lookup_Some.
    split; [done|]. unfold App.collection_mode. cbn [App.label].
    change (length App.cities) with 5%nat.
    destruct (lookup_lt_is_Some_2 App.cities (i `mod` 5)) as [city Hc].
    { change (length App.cities) with 5%nat. apply Nat.mod_upper_bound. lia. }
    by exists city.
  - intros i j m n [_ ->]%collection_modes_lookup_Some
      [_ ->]%collection_modes_lookup_Some Hv.
    unfold App.collection_mode in Hv. cbn [App.value] in Hv.
    by apply (inj pretty) in Hv.
  - intros i m n [_ ->]%collection_modes_lookup_Some
      [_ ->]%collection_modes_lookup_Some.
    unfold App.collection_mode. cbn [App.label].
    change (length App.cities) with 5%nat.
    replace ((i + 5) `mod` 5)%nat with (i `mod` 5)%nat; [done|].
    rewrite <- (Nat.Div0.add_mod_idemp_r i 5 5).
    rewrite Nat.Div0.mod_same, Nat.add_0_r. done.
Qed.

(** ** Measuring inside [onScroll] *)

(** X13. [onScroll] measures after it has moved the window and before the
    window is rendered again: the height read from the element at position
    [idx] of the elements rendered so far is stored at the new
    [visibleStart + idx], and the entries outside the indices so written
    read as before. *)
Theorem onScroll_measures_at_new_start {Item : Type} (c : component Item)
  (scrollTop : Z) (els : list Z) :
  0 ≤ buffer c →
  let c' := (onScroll scrollTop els c).1.1 in
  (∀ (idx : nat) height, els !! idx = Some height →
     mjoin (get (itemHeights c') (visibleStart c' + Z.of_nat idx))
     = Some height)
  ∧ (∀ k : Z,
       k < visibleStart c' ∨ visibleStart c' + Z.of_nat (length els) ≤ k →
       mjoin (get (itemHeights c') k) = mjoin (get (itemHeights c) k)).
Proof.
  intros Hb c'.
  set (c1 := set_visible (Z.max 0 (scan_start c scrollTop - buffer c))
               (Z.min (Z.of_nat (length (items c)))
                  (scan_end c (scrollTop + viewportHeight c)
                     (scan_start c scrollTop) + buffer c)) c).
  assert (0 ≤ visibleStart c1) as Hvs by (simpl; lia).
  split.
  - intros idx height Hidx.
    exact (measureItemHeights_reads_back els c1 idx height Hvs Hidx).
  - intros k Hk.
    change (itemHeights c') with (itemHeights (measureItemHeights els c1).1).
    change (visibleStart c') with (visibleStart c1) in Hk.
    change (itemHeights c) with (itemHeights c1).
    rewrite measureItemHeights_itemHeights.
    destruct (Z_lt_le_dec k 0) as [Hneg|Hnn].
    + rewrite !get_out_of_range by lia. done.
    + rewrite <- (Z2Nat.id k) by done. rewrite !get_nat.
      rewrite <- (Z2Nat.id (visibleStart c1)) at 1 by done.
      apply forEach_measure_lookup_outside. lia.
Qed.

Lemma onScroll_measures_at_new_start_witness :
  let c := with_heights [1; 2; 3; 4; 5]%nat 60 0 [50; 50; 50; 50; 50] in
  let c' := (onScroll 130 [80; 90] c).1.1 in
  0 ≤ buffer c
  ∧ visibleStart c' = 2
  ∧ itemHeights c' = heights_of [50; 50; 80; 90; 50]
  ∧ mjoin (get (itemHeights c') (visibleStart c' + Z.of_nat 1)) = Some 90.
Proof.
  cbv zeta.
  assert (0 ≤ buffer
                (with_heights [1; 2; 3; 4; 5]%nat 60 0 [50; 50; 50; 50; 50]))
    as Hb by (simpl; lia).
  split; [exact Hb|]. split; [reflexivity|]. split; [reflexivity|].
  exact (proj1 (onScroll_measures_at_new_start
                  (with_heights [1; 2; 3; 4; 5]%nat 60 0 [50; 50; 50; 50; 50])
                  130 [80; 90] Hb) 1%nat 90 eq_refl).
Defined.
